(** * voice_assistant.py: the first-party logic of the LiveKit voice agent

    The program is glue over the LiveKit SDK.  Its own logic is
    - [AssistantFunction]: a tool context caching the latest video frame,
    - [get_video_track]: a bounded polling search for a remote video track,
    - [entrypoint] with its nested coroutine [process_video]: the lifecycle.

    Coroutines are embedded in a state-and-exception monad [M].  A coroutine
    runs on one cooperative event loop, so the world can only change while it
    is suspended in an [await]; what the coroutine finds when it is resumed
    is read from a script of wake-ups, the field [oracle] of the state. *)

From Stdlib Require Import List String Bool Arith Lia.
Import ListNotations.
Local Open Scope string_scope.
Local Open Scope list_scope.

(** ** Data of the SDK, as far as the program looks at it *)

(** [rtc.VideoFrame]: a decoded frame.  The class defines neither [__bool__]
    nor [__len__], so every instance is truthy. *)
Record VideoFrame : Type := mkVideoFrame {
  width : nat;
  height : nat;
  type : nat;
  data : list Byte.byte
}.

(** The concrete track classes of [livekit.rtc]; [isinstance] against
    [rtc.RemoteVideoTrack] holds for that class alone, it has no subclass. *)
Inductive TrackClass : Type :=
| LocalAudioTrack
| LocalVideoTrack
| RemoteAudioTrack
| RemoteVideoTrack.

Record Track : Type := mkTrack {
  track_class : TrackClass;
  sid : string
}.

Record RemoteTrackPublication : Type := mkPublication {
  track : option Track
}.

(** A Python dict iterates in insertion order: an association list. *)
Record RemoteParticipant : Type := mkParticipant {
  track_publications : list (string * RemoteTrackPublication)
}.

Inductive ConnectionState : Type :=
| CONN_DISCONNECTED
| CONN_CONNECTED
| CONN_RECONNECTING.

Record Room : Type := mkRoom {
  name : string;
  connection_state : ConnectionState;
  remote_participants : list (string * RemoteParticipant)
}.

(** The exceptions the handlers of the program tell apart:
    [asyncio.CancelledError] derives from [BaseException] only, everything
    else that is raised at run time is an instance of [Exception]. *)
Inductive PyExc : Type :=
| CancelledError
| Exception (msg : string).

Definition isinstance_Exception (e : PyExc) : bool :=
  match e with
  | CancelledError => false
  | Exception _ => true
  end.

Definition isinstance_CancelledError (e : PyExc) : bool :=
  match e with
  | CancelledError => true
  | Exception _ => false
  end.

(** [str(e)], as interpolated by the f-strings of the handlers. *)
Definition str (e : PyExc) : string :=
  match e with
  | CancelledError => ""
  | Exception msg => msg
  end.

(** ** The tool context object *)

(** [AssistantFunction] extends the SDK class [ToolContext].  Of the state
    of the base class the model keeps the list of tools it was initialised
    with; [latest_image] is the one field the subclass adds. *)
Record AssistantFunction : Type := mkAssistantFunction {
  tools : list string;
  latest_image : option VideoFrame
}.

(** [AssistantFunction.__init__]: [super().__init__([])], then
    [self.latest_image = None]. *)
Definition AssistantFunction_init : AssistantFunction :=
  {| tools := []; latest_image := None |}.

(** Truth value of [self.latest_image] in [if self.latest_image:]. *)
Definition truthy (v : option VideoFrame) : bool :=
  match v with
  | None => false
  | Some _ => true
  end.

(** ** Observable actions *)

Inductive Event : Type :=
| EvPrint (line : string)
| EvSleep (seconds : nat)
| EvConnect
| EvNewAgent (instructions : string)
| EvNewToolContext
| EvLoadVAD
| EvNewSTT
| EvNewLLM (model : string)
| EvNewTTS (voice : string)
| EvNewSession
| EvSessionStart
| EvGenerateReply (instructions : string)
| EvCreateTask
| EvCancelTask
| EvAwaitTask
| EvVideoStream (t : Track)
| EvNextFrame.

(** ** The environment of a coroutine *)

(** What a suspended coroutine finds when the event loop resumes it: the room
    as it is by then, and either the value of the awaited operation ([None]
    where it has none, or where an iterator is exhausted) or an exception
    thrown into the [await]. *)
Inductive Wake : Type :=
| Resume (r : Room) (v : option VideoFrame)
| Throw (r : Room) (e : PyExc).

Definition wake_room (w : Wake) : Room :=
  match w with
  | Resume r _ => r
  | Throw r _ => r
  end.

Record St : Type := mkSt {
  room : Room;
  function_ctx : AssistantFunction;
  oracle : list Wake;
  trace : list Event
}.

Definition set_room (r : Room) (st : St) : St :=
  {| room := r; function_ctx := function_ctx st;
     oracle := oracle st; trace := trace st |}.

Definition set_function_ctx (c : AssistantFunction) (st : St) : St :=
  {| room := room st; function_ctx := c;
     oracle := oracle st; trace := trace st |}.

Definition set_oracle (ws : list Wake) (st : St) : St :=
  {| room := room st; function_ctx := function_ctx st;
     oracle := ws; trace := trace st |}.

Definition add_event (ev : Event) (st : St) : St :=
  {| room := room st; function_ctx := function_ctx st;
     oracle := oracle st; trace := trace st ++ [ev] |}.

(** ** The coroutine monad *)

(** Outcome of running a coroutine on a finite script: it returned, it raised,
    it is still suspended when the script ends ([Pending]), or a loop ran out
    of its recursion budget ([OutOfFuel], shown unreachable below). *)
Inductive Res (A : Type) : Type :=
| Ret (a : A)
| Raise (e : PyExc)
| Pending
| OutOfFuel.

Arguments Ret {A} a.
Arguments Raise {A} e.
Arguments Pending {A}.
Arguments OutOfFuel {A}.

Definition M (A : Type) : Type := St -> Res A * St.

Definition ret {A : Type} (a : A) : M A := fun st => (Ret a, st).

Definition bind {A B : Type} (m : M A) (k : A -> M B) : M B :=
  fun st =>
    match m st with
    | (Ret a, st') => k a st'
    | (Raise e, st') => (Raise e, st')
    | (Pending, st') => (Pending, st')
    | (OutOfFuel, st') => (OutOfFuel, st')
    end.

Notation "x <- m ;; k" := (bind m (fun x => k))
  (at level 61, m at next level, right associativity).
Notation "m ;; k" := (bind m (fun _ => k))
  (at level 61, right associativity).

Definition gets {A : Type} (f : St -> A) : M A := fun st => (Ret (f st), st).

Definition modify (f : St -> St) : M unit := fun st => (Ret tt, f st).

(** A synchronous call that is only observed. *)
Definition emit (ev : Event) : M unit := modify (add_event ev).

Definition print (line : string) : M unit := emit (EvPrint line).

(** [await]: the operation is started (and recorded), the coroutine is
    suspended, and the next wake-up of the script decides how it goes on. *)
Definition await (ev : Event) : M (option VideoFrame) :=
  fun st =>
    let st1 := add_event ev st in
    match oracle st1 with
    | [] => (Pending, st1)
    | Resume r v :: ws => (Ret v, set_room r (set_oracle ws st1))
    | Throw r e :: ws => (Raise e, set_room r (set_oracle ws st1))
    end.

(** [await asyncio.sleep(seconds)] *)
Definition sleep (seconds : nat) : M unit := await (EvSleep seconds) ;; ret tt.

(** [try: m except C as e: h e], where [catches] decides [isinstance(e, C)]. *)
Definition try_except {A : Type} (m : M A) (catches : PyExc -> bool)
    (h : PyExc -> M A) : M A :=
  fun st =>
    match m st with
    | (Raise e, st') => if catches e then h e st' else (Raise e, st')
    | other => other
    end.

(** [try: m finally: f]: [f] runs when [m] returns and when it raises; an
    exception of [m] is raised again after [f], one of [f] replaces it. *)
Definition try_finally {A : Type} (m : M A) (f : M unit) : M A :=
  fun st =>
    match m st with
    | (Ret a, st') => (f ;; ret a) st'
    | (Raise e, st') => (f ;; (fun st2 => (Raise e, st2))) st'
    | other => other
    end.

(** [while cond: body], with an explicit recursion budget. *)
Fixpoint while_fuel (fuel : nat) (cond : St -> bool) (body : M unit) : M unit :=
  fun st =>
    match fuel with
    | 0 => (OutOfFuel, st)
    | S fuel' =>
        if cond st then
          match body st with
          | (Ret _, st') => while_fuel fuel' cond body st'
          | other => other
          end
        else (Ret tt, st)
    end.

(** The loops of the program await at least once per iteration, so the
    length of the remaining script bounds the number of iterations. *)
Definition while_ (cond : St -> bool) (body : M unit) : M unit :=
  fun st => while_fuel (S (List.length (oracle st))) cond body st.

(** [async for event in stream: body event.frame].  Every iteration awaits
    the next event; [None] stands for [StopAsyncIteration]. *)
Fixpoint async_for_fuel (fuel : nat) (body : VideoFrame -> M unit) : M unit :=
  fun st =>
    match fuel with
    | 0 => (OutOfFuel, st)
    | S fuel' =>
        match await EvNextFrame st with
        | (Ret (Some frame), st1) =>
            match body frame st1 with
            | (Ret _, st2) => async_for_fuel fuel' body st2
            | other => other
            end
        | (Ret None, st1) => (Ret tt, st1)
        | (Raise e, st1) => (Raise e, st1)
        | (Pending, st1) => (Pending, st1)
        | (OutOfFuel, st1) => (OutOfFuel, st1)
        end
    end.

Definition async_for (body : VideoFrame -> M unit) : M unit :=
  fun st => async_for_fuel (S (List.length (oracle st))) body st.

(** ** class AssistantFunction *)

Module AssistantFunctionMethods.

(** [analyze_image(self, user_msg)] *)
Definition analyze_image (user_msg : string) : M string :=
  print ("Message triggering vision capabilities: " ++ user_msg)%string ;;
  self <- gets function_ctx ;;
  if truthy (latest_image self)
  then ret "I can see the current video feed. Let me analyze what's visible."
  else ret "I don't currently have access to any images to analyze.".

(** [update_image(self, image)] *)
Definition update_image (image : VideoFrame) : M unit :=
  modify (fun st =>
    set_function_ctx
      {| tools := tools (function_ctx st); latest_image := Some image |} st).

End AssistantFunctionMethods.
Import AssistantFunctionMethods.

(** ** get_video_track *)

Definition isinstance_RemoteVideoTrack (t : Track) : bool :=
  match track_class t with
  | RemoteVideoTrack => true
  | _ => false
  end.

(** The two inner [for] loops: the first publication, in iteration order,
    whose track is not [None] and is a remote video track. *)
Fixpoint scan_publications (pubs : list (string * RemoteTrackPublication))
    : option Track :=
  match pubs with
  | [] => None
  | (_, track_publication) :: rest =>
      match track track_publication with
      | Some t =>
          if isinstance_RemoteVideoTrack t then Some t
          else scan_publications rest
      | None => scan_publications rest
      end
  end.

Fixpoint scan_participants (ps : list (string * RemoteParticipant))
    : option Track :=
  match ps with
  | [] => None
  | (_, participant) :: rest =>
      match scan_publications (track_publications participant) with
      | Some t => Some t
      | None => scan_participants rest
      end
  end.

(** [for _ in range(attempts): ...] followed by [return None]. *)
Fixpoint get_video_track_from (attempts : nat) : M (option Track) :=
  match attempts with
  | 0 => ret None
  | S attempts' =>
      r <- gets room ;;
      match scan_participants (remote_participants r) with
      | Some t =>
          print ("Using video track " ++ sid t)%string ;;
          ret (Some t)
      | None =>
          sleep 1 ;;
          get_video_track_from attempts'
      end
  end.

Definition get_video_track : M (option Track) := get_video_track_from 30.

(** ** class VisionAssistant *)

Definition VisionAssistant_instructions : string :=
  "Your name is Alloy. You are a funny, witty bot with vision capabilities. "
  ++ "Your interface with users will be voice and vision. "
  ++ "Respond with short and concise answers. "
  ++ "Avoid using unpronounceable punctuation or emojis. "
  ++ "When users ask you to look at something or describe what you see, "
  ++ "call the analyze_image function to use your vision capabilities.".

(** ** entrypoint and its nested coroutine process_video *)

(** [room.connection_state == rtc.ConnectionState.CONN_CONNECTED] *)
Definition is_connected (r : Room) : bool :=
  match connection_state r with
  | CONN_CONNECTED => true
  | _ => false
  end.

(** The loop condition of [process_video] and of [entrypoint], on [ctx.room]. *)
Definition connected (st : St) : bool := is_connected (room st).

(** The body of the inner [try] of [process_video].  The [continue] of the
    branch without a track ends the iteration, as does the end of the
    [async for] in the other branch. *)
Definition process_video_try : M unit :=
  video_track <- get_video_track ;;
  match video_track with
  | None =>
      print "No video track found, waiting..." ;;
      sleep 2
  | Some t =>
      print "Starting video stream processing..." ;;
      emit (EvVideoStream t) ;;
      async_for (fun frame => update_image frame)
  end.

(** The handler of the inner [try]. *)
Definition process_video_except (e : PyExc) : M unit :=
  print ("Video processing error: " ++ str e)%string ;;
  sleep 1.

(** One iteration of the [while] loop of [process_video]. *)
Definition process_video_iteration : M unit :=
  try_except process_video_try isinstance_Exception process_video_except.

Definition process_video : M unit :=
  try_except
    (while_ connected process_video_iteration)
    isinstance_Exception
    (fun e => print ("Video processing task error: " ++ str e)%string).

(** How far the event loop has run the background task by the time the
    foreground coroutine asks for its cancellation: not at all, or from the
    state [bg] through the wake-ups [oracle bg]. *)
Inductive TaskProgress : Type :=
| NotStarted
| Started (bg : St).

(** The result of the task once cancellation has been requested in room
    state [r].  A task that never ran is cancelled before its first step; a
    suspended task has [CancelledError] thrown into the [await] it is
    suspended in; a task that is done keeps its result. *)
Definition task_outcome (task : TaskProgress) (r : Room) : Res unit :=
  match task with
  | NotStarted => Raise CancelledError
  | Started bg =>
      fst (process_video
             (set_oracle (oracle bg ++ [Throw r CancelledError]) bg))
  end.

(** [await video_task], after [video_task.cancel()]: the awaiting coroutine
    gets the result of the task, or never wakes if the task never ends. *)
Definition await_task (task : TaskProgress) : M unit :=
  emit EvAwaitTask ;;
  (fun st => (task_outcome task (room st), st)).

(** The [while] loop of [entrypoint]. *)
Definition idle_loop : M unit := while_ connected (sleep 1).

(** The [finally] block of [entrypoint]. *)
Definition shutdown (task : TaskProgress) : M unit :=
  emit EvCancelTask ;;
  try_except (await_task task) isinstance_CancelledError (fun _ => ret tt).

Definition greeting : string :=
  "Greet the user warmly and let them know you can see and hear them.".

(** The [try ... finally] statement that ends [entrypoint]. *)
Definition run_until_disconnected (task : TaskProgress) : M unit :=
  try_finally idle_loop (shutdown task).

Definition entrypoint (task : TaskProgress) : M unit :=
  await EvConnect ;;
  r <- gets room ;;
  print ("Room name: " ++ name r)%string ;;
  emit (EvNewAgent VisionAssistant_instructions) ;;
  emit EvNewToolContext ;;
  modify (set_function_ctx AssistantFunction_init) ;;
  emit EvLoadVAD ;;
  emit EvNewSTT ;;
  emit (EvNewLLM "gpt-4o") ;;
  emit (EvNewTTS "alloy") ;;
  emit EvNewSession ;;
  await EvSessionStart ;;
  await (EvGenerateReply greeting) ;;
  emit EvCreateTask ;;
  run_until_disconnected task.

(** ** Vocabulary of the statements *)

Definition is_resume (w : Wake) : bool :=
  match w with
  | Resume _ _ => true
  | Throw _ _ => false
  end.

(** The first [k] awaits of a run from [st] complete normally. *)
Definition resumed (k : nat) (st : St) : Prop :=
  k <= List.length (oracle st) /\
  forallb is_resume (firstn k (oracle st)) = true.

(** The rooms the coroutine sees: the current one, then the one found at
    each wake-up.  The scan after [i] wake-ups looks at element [i]. *)
Definition snapshots (st : St) : list Room :=
  room st :: map wake_room (oracle st).

(** Track [t] is a remote video track published by a remote participant. *)
Definition video_track_published (r : Room) (t : Track) : Prop :=
  exists identity participant key publication,
    In (identity, participant) (remote_participants r) /\
    In (key, publication) (track_publications participant) /\
    track publication = Some t /\
    track_class t = RemoteVideoTrack.

Definition no_video_track (r : Room) : Prop :=
  forall t, ~ video_track_published r t.

(** The line [get_video_track] prints when it returns track [t]. *)
Definition using_video_track (t : Track) : Event :=
  EvPrint ("Using video track " ++ sid t)%string.

(** The frames held by the cache. *)
Definition cached_frames (c : AssistantFunction) : list VideoFrame :=
  match latest_image c with
  | Some f => [f]
  | None => []
  end.

(** The frames of a list handed to [update_image], one call after the other. *)
Fixpoint deliver (frames : list VideoFrame) : M unit :=
  match frames with
  | [] => ret tt
  | f :: rest => update_image f ;; deliver rest
  end.

(** The steps of [entrypoint] up to the creation of the video task, for a
    room called [room_name]. *)
Definition setup_events (room_name : string) : list Event :=
  [ EvConnect;
    EvPrint ("Room name: " ++ room_name)%string;
    EvNewAgent VisionAssistant_instructions;
    EvNewToolContext;
    EvLoadVAD; EvNewSTT; EvNewLLM "gpt-4o"; EvNewTTS "alloy"; EvNewSession;
    EvSessionStart;
    EvGenerateReply greeting;
    EvCreateTask ].

(** The order of all steps of [entrypoint], with [idle] rounds of the idle
    loop. *)
Definition lifecycle (room_name : string) (idle : nat) : list Event :=
  setup_events room_name
  ++ repeat (EvSleep 1) idle
  ++ [ EvCancelTask; EvAwaitTask ].

Definition prefix_of {A : Type} (l1 l2 : list A) : Prop :=
  exists rest, l2 = l1 ++ rest.

(** The output of the two handlers of [process_video]. *)
Definition video_processing_error (e : PyExc) : Event :=
  EvPrint ("Video processing error: " ++ str e)%string.

Definition video_processing_task_error (e : PyExc) : Event :=
  EvPrint ("Video processing task error: " ++ str e)%string.

(** What [process_video] does from the top of its loop to the [await] of
    the first frame, when track [t] is there at once. *)
Definition stream_opening (t : Track) : list Event :=
  [ using_video_track t;
    EvPrint "Starting video stream processing...";
    EvVideoStream t;
    EvNextFrame ].

(** One round of [process_video] in which the stream of [t] fails with [e]. *)
Definition error_round (t : Track) (e : PyExc) : list Event :=
  stream_opening t ++ [ video_processing_error e; EvSleep 1 ].

(** Some wake-up of the list throws [CancelledError]. *)
Definition cancel_in (pre : list Wake) : Prop :=
  exists r, In (Throw r CancelledError) pre.

(** A run from [st] with outcome [out] took a prefix of the script, is only
    pending once the script is used up, stayed within its recursion budget,
    and ended by raising [CancelledError] if a wake-up it took threw one. *)
Definition run_ok {A : Type} (st : St) (out : Res A * St) : Prop :=
  exists pre,
    oracle st = pre ++ oracle (snd out) /\
    (fst out = Pending -> oracle (snd out) = []) /\
    fst out <> OutOfFuel /\
    (cancel_in pre -> fst out = Raise CancelledError).

Definition well_behaved {A : Type} (m : M A) : Prop :=
  forall st, run_ok st (m st).

(** A coroutine that cannot return without having awaited. *)
Definition productive {A : Type} (m : M A) : Prop :=
  forall st a st',
    m st = (Ret a, st') ->
    List.length (oracle st') < List.length (oracle st).

(** A coroutine none of whose runs exhausts the recursion budget of a loop. *)
Definition in_budget {A : Type} (m : M A) : Prop :=
  forall st, fst (m st) <> OutOfFuel.

(** None of the publications carries a remote video track. *)
Definition no_video_publication
    (pubs : list (string * RemoteTrackPublication)) : Prop :=
  forall key publication t,
    In (key, publication) pubs ->
    track publication = Some t ->
    track_class t <> RemoteVideoTrack.

(** The script of a run, with the wake-ups [ext] added at its end. *)
Definition with_more (ext : list Wake) (st : St) : St :=
  set_oracle (oracle st ++ ext) st.

(** The wake-ups of a stream that delivers the frames [ds], each in the
    room state it comes with. *)
Definition deliveries (ds : list (Room * VideoFrame)) : list Wake :=
  map (fun d => Resume (fst d) (Some (snd d))) ds.

(** The cache after the frames [ds] were handed to [update_image]. *)
Definition cache_after (ds : list (Room * VideoFrame))
    (c : AssistantFunction) : AssistantFunction :=
  {| tools := tools c;
     latest_image := last (map (fun d => Some (snd d)) ds) (latest_image c) |}.

(** The room after the wake-ups [ws], starting from room [r]. *)
Definition room_after (ws : list Wake) (r : Room) : Room :=
  last (map wake_room ws) r.

(** Every run of [m] keeps the property [P] of the tool context. *)
Definition ctx_invariant (P : AssistantFunction -> Prop) {A : Type}
    (m : M A) : Prop :=
  forall st, P (function_ctx st) -> P (function_ctx (snd (m st))).

(** A run of [m] that has ended is not changed by wake-ups added to the end
    of its script: they are left over. *)
Definition script_stable {A : Type} (m : M A) : Prop :=
  forall st res st' ext,
    m st = (res, st') ->
    res <> Pending -> res <> OutOfFuel ->
    m (with_more ext st) = (res, with_more ext st').

(** If [m] is suspended when its script ends and the next wake-up throws
    [CancelledError], [m] raises it from where it is suspended. *)
Definition cancel_here {A : Type} (m : M A) : Prop :=
  forall st st',
    m st = (Pending, st') ->
    forall r rest,
      m (with_more (Throw r CancelledError :: rest) st) =
        (Raise CancelledError, set_room r (set_oracle rest st')).

(** Every run of [m] only adds to the record of what was done. *)
Definition trace_grows {A : Type} (m : M A) : Prop :=
  forall st, prefix_of (trace st) (trace (snd (m st))).


(** The state in which [process_video] awaits its sleep of two seconds,
    after a search that ended without a track in [st30]. *)
Definition no_track_wait (st30 : St) : St :=
  add_event (EvSleep 2)
    (add_event (EvPrint "No video track found, waiting...") st30).

(** The state a coroutine suspended in [st] is in once it is resumed in
    room [r] with the wake-ups [ws] still to come. *)
Definition resumed_in (r : Room) (ws : list Wake) (st : St) : St :=
  set_room r (set_oracle ws st).

(** ** Sample data *)

Module Sample.

Definition video : Track := mkTrack RemoteVideoTrack "TR_video".
Definition audio : Track := mkTrack RemoteAudioTrack "TR_audio".

Definition alice : RemoteParticipant :=
  mkParticipant [ ("TR_pending", mkPublication None);
                  ("TR_audio", mkPublication (Some audio));
                  ("TR_video", mkPublication (Some video)) ].

Definition bob : RemoteParticipant :=
  mkParticipant [ ("TR_audio", mkPublication (Some audio)) ].

Definition empty_room : Room := mkRoom "lobby" CONN_CONNECTED [].
Definition audio_room : Room := mkRoom "lobby" CONN_CONNECTED [("bob", bob)].
Definition video_room : Room :=
  mkRoom "lobby" CONN_CONNECTED [("bob", bob); ("alice", alice)].
Definition closed_room : Room := mkRoom "lobby" CONN_DISCONNECTED [].

Definition frame1 : VideoFrame := mkVideoFrame 2 1 0 [Byte.x00; Byte.x01].
Definition frame2 : VideoFrame := mkVideoFrame 1 1 0 [Byte.xff].

Definition start (r : Room) (ws : list Wake) : St :=
  mkSt r AssistantFunction_init ws [].

Definition seen (f : VideoFrame) (st : St) : St :=
  set_function_ctx
    {| tools := tools (function_ctx st); latest_image := Some f |} st.

End Sample.

(** Sample runs. *)
Module Runs.

Import Sample.

Definition reconnecting_room : Room := mkRoom "lobby" CONN_RECONNECTING [].

(** No track for a whole search. *)
Definition searching : St := start audio_room (repeat (Resume audio_room None) 30).

(** No track for a whole round of [process_video]. *)
Definition waiting : St := start audio_room (repeat (Resume audio_room None) 31).

(** A track appears during the first sleep. *)
Definition joining : St := start audio_room [Resume video_room None].

(** Two frames, the second one delivered after the room was closed. *)
Definition streaming : St :=
  start video_room (deliveries [(video_room, frame1); (closed_room, frame2)]).

(** One frame, then the stream ends in a closed room. *)
Definition ending : St :=
  start video_room
    (deliveries [(video_room, frame1)] ++ [Resume closed_room None]).

(** The stream fails, and so does the sleep of the handler. *)
Definition failing : St :=
  start video_room
    [Throw video_room (Exception "decoder lost");
     Throw video_room (Exception "loop closed")].

(** A frame is cached and the stream fails. *)
Definition stale : St :=
  seen frame1 (start video_room [Throw video_room (Exception "decoder lost")]).

(** The idle loop is interrupted in its second sleep. *)
Definition interrupted : St :=
  start empty_room [Resume empty_room None; Throw empty_room CancelledError].

(** The room stays connected. *)
Definition idling : St :=
  start empty_room [Resume empty_room None; Resume video_room None].

(** [session.start] fails. *)
Definition unstartable : St :=
  start closed_room
    [Resume empty_room None; Throw empty_room (Exception "session failed")].

(** The search is cancelled in its second sleep. *)
Definition cancelled_search : St :=
  start audio_room [Resume audio_room None; Throw audio_room CancelledError].

(** The stream fails three times in a row. *)
Definition flaky : St :=
  start video_room
    (List.concat
       (repeat [Throw video_room (Exception "decoder lost");
                Resume video_room None] 3)).


End Runs.

(** * Properties *)

(** ** The tool context *)

Section ToolContext.

Variable user_msg : string.

Lemma analyze_image_run (st : St) :
  analyze_image user_msg st =
    (Ret (if truthy (latest_image (function_ctx st))
          then "I can see the current video feed. Let me analyze what's visible."
          else "I don't currently have access to any images to analyze."),
     add_event
       (EvPrint ("Message triggering vision capabilities: " ++ user_msg)%string)
       st).
Proof.
  unfold analyze_image, print, emit, modify, gets, bind, ret. simpl.
  destruct (latest_image (function_ctx st)); reflexivity.
Qed.

(** C1: [analyze_image] answers "I can see the current video feed. ..."
    when a frame is cached in [latest_image] and "I don't currently have
    access ..." when [latest_image] is [None], whatever [user_msg] is. *)
Theorem analyze_image_result (st : St) :
  fst (analyze_image user_msg st) =
    Ret (match latest_image (function_ctx st) with
         | Some _ =>
             "I can see the current video feed. Let me analyze what's visible."
         | None =>
             "I don't currently have access to any images to analyze."
         end).
Proof.
  rewrite analyze_image_run. simpl.
  destruct (latest_image (function_ctx st)); reflexivity.
Qed.

(** C6: with a frame cached in both runs, [analyze_image] returns the same
    string and prints the same line whatever the two frames are: nothing of
    a frame's content reaches the result or the output. *)
Theorem analyze_image_ignores_frame_content
    (st1 st2 : St) (f1 f2 : VideoFrame)
    (H1 : latest_image (function_ctx st1) = Some f1)
    (H2 : latest_image (function_ctx st2) = Some f2) :
  fst (analyze_image user_msg st1) = fst (analyze_image user_msg st2) /\
  exists line,
    trace (snd (analyze_image user_msg st1)) = trace st1 ++ [EvPrint line] /\
    trace (snd (analyze_image user_msg st2)) = trace st2 ++ [EvPrint line].
Proof.
  rewrite !analyze_image_run. simpl. rewrite H1, H2. simpl.
  split; [reflexivity | eexists; split; reflexivity].
Qed.

(** C8: [analyze_image] leaves every field of the tool context as it was,
    and [update_image] writes [latest_image] and nothing else. *)
Theorem analyze_image_read_only (st : St) :
  function_ctx (snd (analyze_image user_msg st)) = function_ctx st /\
  forall image,
    latest_image (function_ctx (snd (update_image image st))) = Some image /\
    tools (function_ctx (snd (update_image image st))) =
      tools (function_ctx st).
Proof.
  rewrite analyze_image_run. simpl. split; [reflexivity | ].
  intros image. split; reflexivity.
Qed.

End ToolContext.

Lemma deliver_run (frames : list VideoFrame) :
  forall st, fst (deliver frames st) = Ret tt /\
             room (snd (deliver frames st)) = room st /\
             oracle (snd (deliver frames st)) = oracle st /\
             trace (snd (deliver frames st)) = trace st /\
             tools (function_ctx (snd (deliver frames st))) =
               tools (function_ctx st).
Proof.
  induction frames as [ | f rest IH]; intros st.
  - repeat split.
  - cbn [deliver]. unfold bind, update_image, modify.
    match goal with
    | |- context [deliver rest ?s] => destruct (IH s) as (E & R & O & T & F)
    end.
    simpl in R, O, T, F. repeat split; assumption.
Qed.

Lemma deliver_app (fs gs : list VideoFrame) (st : St) :
  snd (deliver (fs ++ gs) st) = snd (deliver gs (snd (deliver fs st))).
Proof.
  revert st. induction fs as [ | f rest IH]; intros st.
  - reflexivity.
  - cbn [deliver app]. unfold bind, update_image, modify. apply IH.
Qed.

Lemma deliver_at_most_one (frames : list VideoFrame) (st : St) :
  List.length (cached_frames (function_ctx (snd (deliver frames st)))) <= 1.
Proof.
  unfold cached_frames.
  destruct (latest_image (function_ctx (snd (deliver frames st))));
    simpl; lia.
Qed.

(** C3: the cache holds at most one frame; after any sequence of calls to
    [update_image] it holds the frame delivered last; a call overwrites what
    the call before it stored, so that no history is kept; and delivering
    the same frame twice leaves the same state as delivering it once. *)
Theorem update_image_keeps_latest (st : St) (frames : list VideoFrame)
    (f g : VideoFrame) :
  List.length (cached_frames (function_ctx (snd (deliver frames st)))) <= 1 /\
  latest_image (function_ctx (snd (deliver (frames ++ [f]) st))) = Some f /\
  snd (update_image f (snd (update_image g st))) = snd (update_image f st) /\
  snd (update_image f (snd (update_image f st))) = snd (update_image f st).
Proof.
  split; [apply deliver_at_most_one | ].
  split; [rewrite deliver_app; reflexivity | ].
  split; reflexivity.
Qed.

(** ** The search for a video track *)

Section Scan.

Lemma scan_publications_found pubs t :
  scan_publications pubs = Some t ->
  exists key publication,
    In (key, publication) pubs /\
    track publication = Some t /\
    track_class t = RemoteVideoTrack.
Proof.
  induction pubs as [ | [key pub] rest IH]; simpl; [discriminate | ].
  destruct (track pub) as [t0 | ] eqn:Etrack.
  - unfold isinstance_RemoteVideoTrack.
    destruct (track_class t0) eqn:Eclass;
      try (intros H; destruct (IH H) as (k & p & Hin & Hp);
           exists k, p; split; [right; exact Hin | exact Hp]).
    intros H. injection H as <-. exists key, pub. auto.
  - intros H. destruct (IH H) as (k & p & Hin & Hp).
    exists k, p. split; [right; exact Hin | exact Hp].
Qed.

Lemma scan_publications_missed pubs :
  scan_publications pubs = None ->
  forall key publication t,
    In (key, publication) pubs ->
    track publication = Some t ->
    track_class t <> RemoteVideoTrack.
Proof.
  induction pubs as [ | [key0 pub0] rest IH]; simpl; [contradiction | ].
  intros Hscan key pub t [Heq | Hin] Htrack.
  - injection Heq as <- <-. rewrite Htrack in Hscan.
    unfold isinstance_RemoteVideoTrack in Hscan.
    destruct (track_class t); discriminate.
  - apply (IH) with (key := key) (publication := pub); try assumption.
    destruct (track pub0) as [t0 | ]; [ | assumption].
    destruct (isinstance_RemoteVideoTrack t0); [discriminate | assumption].
Qed.

Lemma scan_participants_found r t :
  scan_participants (remote_participants r) = Some t ->
  video_track_published r t.
Proof.
  unfold video_track_published.
  induction (remote_participants r) as [ | [identity p] rest IH]; simpl;
    [discriminate | ].
  destruct (scan_publications (track_publications p)) as [t0 | ] eqn:Epubs.
  - intros H. injection H as <-.
    destruct (scan_publications_found _ _ Epubs) as (key & pub & Hin & Hp).
    exists identity, p, key, pub. auto.
  - intros H. destruct (IH H) as (i & q & key & pub & Hin & Hrest).
    exists i, q, key, pub. auto.
Qed.

Lemma scan_participants_missed r :
  scan_participants (remote_participants r) = None -> no_video_track r.
Proof.
  unfold no_video_track, video_track_published.
  induction (remote_participants r) as [ | [identity p] rest IH]; simpl.
  - intros _ t (i & q & key & pub & [] & _).
  - destruct (scan_publications (track_publications p)) as [t0 | ] eqn:Epubs;
      [discriminate | ].
    intros Hscan t (i & q & key & pub & [Heq | Hin] & Hpub & Htrack & Hclass).
    + injection Heq as <- <-.
      exact (scan_publications_missed _ Epubs _ _ _ Hpub Htrack Hclass).
    + apply (IH Hscan t). exists i, q, key, pub. auto.
Qed.

Lemma scan_participants_none_iff r :
  scan_participants (remote_participants r) = None <-> no_video_track r.
Proof.
  split; [apply scan_participants_missed | ].
  intros Hno.
  destruct (scan_participants (remote_participants r)) as [t | ] eqn:E;
    [ | reflexivity].
  destruct (Hno t (scan_participants_found _ _ E)).
Qed.

End Scan.

Section Awaiting.

Lemma await_resume ev st r v ws :
  oracle st = Resume r v :: ws ->
  await ev st = (Ret v, set_room r (set_oracle ws (add_event ev st))).
Proof. intros H. unfold await. simpl. rewrite H. reflexivity. Qed.

Lemma await_throw ev st r e ws :
  oracle st = Throw r e :: ws ->
  await ev st = (Raise e, set_room r (set_oracle ws (add_event ev st))).
Proof. intros H. unfold await. simpl. rewrite H. reflexivity. Qed.

Lemma await_pending ev st :
  oracle st = [] -> await ev st = (Pending, add_event ev st).
Proof. intros H. unfold await. simpl. rewrite H. reflexivity. Qed.

Lemma sleep_resume n st r v ws :
  oracle st = Resume r v :: ws ->
  sleep n st = (Ret tt, set_room r (set_oracle ws (add_event (EvSleep n) st))).
Proof.
  intros H. unfold sleep, bind. rewrite (await_resume _ _ _ _ _ H). reflexivity.
Qed.

Lemma sleep_throw n st r e ws :
  oracle st = Throw r e :: ws ->
  sleep n st = (Raise e, set_room r (set_oracle ws (add_event (EvSleep n) st))).
Proof.
  intros H. unfold sleep, bind. rewrite (await_throw _ _ _ _ _ H). reflexivity.
Qed.

Lemma sleep_pending n st :
  oracle st = [] -> sleep n st = (Pending, add_event (EvSleep n) st).
Proof.
  intros H. unfold sleep, bind. rewrite (await_pending _ _ H). reflexivity.
Qed.

(** A run whose first [S k] awaits complete starts with a [Resume]. *)
Lemma resumed_S k st :
  resumed (S k) st ->
  exists r v ws,
    oracle st = Resume r v :: ws /\
    forall ev, resumed k (set_room r (set_oracle ws (add_event ev st))).
Proof.
  unfold resumed. intros [Hlen Hall].
  destruct (oracle st) as [ | [r v | r e] ws] eqn:E; simpl in *;
    [lia | | discriminate].
  exists r, v, ws. split; [reflexivity | ].
  intros ev. split; [lia | assumption].
Qed.

End Awaiting.

Section GetVideoTrack.

Lemma get_video_track_from_found k :
  forall attempts st r t,
    k < attempts ->
    resumed k st ->
    Forall no_video_track (firstn k (snapshots st)) ->
    nth_error (snapshots st) k = Some r ->
    video_track_published r t ->
    exists t' st',
      get_video_track_from attempts st = (Ret (Some t'), st') /\
      video_track_published r t' /\
      room st' = r /\
      oracle st' = skipn k (oracle st) /\
      trace st' = trace st ++ repeat (EvSleep 1) k ++ [using_video_track t'].
Proof.
  induction k as [ | k IH]; intros attempts st r t Hlt Hres Hno Hnth Hpub;
    destruct attempts as [ | attempts]; try lia;
    cbn [get_video_track_from]; unfold bind at 1, gets at 1.
  - simpl in Hnth. injection Hnth as <-.
    destruct (scan_participants (remote_participants (room st))) as [t' | ]
      eqn:Escan.
    + exists t', (add_event (using_video_track t') st).
      repeat split. apply scan_participants_found, Escan.
    + apply scan_participants_none_iff in Escan. destruct (Escan t Hpub).
  - simpl in Hno. apply Forall_cons_iff in Hno. destruct Hno as [Hno0 Hno].
    apply scan_participants_none_iff in Hno0. rewrite Hno0.
    destruct (resumed_S _ _ Hres) as (r1 & v & ws & Hor & Hres').
    unfold bind. rewrite (sleep_resume _ _ _ _ _ Hor).
    unfold snapshots in Hno, Hnth. rewrite Hor in Hno, Hnth. simpl in Hnth.
    destruct (IH attempts _ r t ltac:(lia) (Hres' (EvSleep 1)) Hno Hnth Hpub)
      as (t' & st' & Hrun & Hpub' & Hroom & Horacle & Htrace).
    exists t', st'. rewrite Hor. simpl in Horacle, Htrace.
    repeat split; try assumption.
    rewrite Htrace, <- app_assoc. reflexivity.
Qed.

Lemma get_video_track_from_exhausted attempts :
  forall st,
    resumed attempts st ->
    Forall no_video_track (firstn attempts (snapshots st)) ->
    exists st',
      get_video_track_from attempts st = (Ret None, st') /\
      oracle st' = skipn attempts (oracle st) /\
      trace st' = trace st ++ repeat (EvSleep 1) attempts.
Proof.
  induction attempts as [ | attempts IH]; intros st Hres Hno;
    cbn [get_video_track_from].
  - exists st. simpl. rewrite app_nil_r. repeat split.
  - unfold bind at 1, gets at 1.
    simpl in Hno. apply Forall_cons_iff in Hno. destruct Hno as [Hno0 Hno].
    apply scan_participants_none_iff in Hno0. rewrite Hno0.
    destruct (resumed_S _ _ Hres) as (r1 & v & ws & Hor & Hres').
    unfold bind. rewrite (sleep_resume _ _ _ _ _ Hor).
    rewrite Hor in Hno.
    destruct (IH _ (Hres' (EvSleep 1)) Hno) as (st' & Hrun & Horacle & Htrace).
    exists st'. rewrite Hor. simpl in Horacle, Htrace.
    repeat split; try assumption.
    rewrite Htrace, <- app_assoc. reflexivity.
Qed.

Lemma get_video_track_from_returns attempts :
  forall st st' t,
    get_video_track_from attempts st = (Ret (Some t), st') ->
    scan_participants (remote_participants (room st')) = Some t /\
    In (room st') (snapshots st).
Proof.
  induction attempts as [ | attempts IH]; intros st st' t;
    cbn [get_video_track_from]; [discriminate | ].
  unfold bind at 1, gets at 1.
  destruct (scan_participants (remote_participants (room st))) as [t0 | ]
    eqn:Escan.
  - intros H. injection H as <- <-. split; [exact Escan | left; reflexivity].
  - unfold bind at 1.
    destruct (oracle st) as [ | [r v | r e] ws] eqn:Hor.
    + rewrite (sleep_pending _ _ Hor). discriminate.
    + rewrite (sleep_resume _ _ _ _ _ Hor).
      intros H. apply IH in H. destruct H as [Hscan Hin].
      split; [exact Hscan | ].
      unfold snapshots in *. rewrite Hor. simpl in *. right. exact Hin.
    + rewrite (sleep_throw _ _ _ _ _ Hor). discriminate.
Qed.

(** C2: [get_video_track] returns a remote video track when one is published
    at one of its 30 scans, after one sleep of a second for every scan that
    found none; when none of the 30 scans finds one it returns [None], after
    exactly 30 sleeps of one second. *)
Theorem get_video_track_polling (st : St) :
  (forall k r t,
     k < 30 ->
     resumed k st ->
     Forall no_video_track (firstn k (snapshots st)) ->
     nth_error (snapshots st) k = Some r ->
     video_track_published r t ->
     exists t' st',
       get_video_track st = (Ret (Some t'), st') /\
       video_track_published r t' /\
       trace st' = trace st ++ repeat (EvSleep 1) k ++ [using_video_track t']) /\
  (resumed 30 st ->
   Forall no_video_track (firstn 30 (snapshots st)) ->
   exists st',
     get_video_track st = (Ret None, st') /\
     trace st' = trace st ++ repeat (EvSleep 1) 30).
Proof.
  split.
  - intros k r t Hlt Hres Hno Hnth Hpub.
    destruct (get_video_track_from_found k 30 st r t Hlt Hres Hno Hnth Hpub)
      as (t' & st' & Hrun & Hpub' & _ & _ & Htrace).
    exists t', st'. auto.
  - intros Hres Hno.
    destruct (get_video_track_from_exhausted 30 st Hres Hno)
      as (st' & Hrun & _ & Htrace).
    exists st'. auto.
Qed.

(** C9: when a remote video track is published as [get_video_track] is
    called, the first scan returns it: nothing is awaited, so no sleep takes
    place and no wake-up is consumed. *)
Theorem get_video_track_immediate (st : St) (t : Track)
    (H : video_track_published (room st) t) :
  exists t',
    video_track_published (room st) t' /\
    get_video_track st = (Ret (Some t'), add_event (using_video_track t') st).
Proof.
  unfold get_video_track. cbn [get_video_track_from].
  unfold bind at 1, gets at 1.
  destruct (scan_participants (remote_participants (room st))) as [t' | ]
    eqn:Escan.
  - exists t'. split; [apply scan_participants_found, Escan | reflexivity].
  - apply scan_participants_none_iff in Escan. destruct (Escan t H).
Qed.

(** C10: a track returned by [get_video_track] is an instance of
    [RemoteVideoTrack] and is the track of a publication of a remote
    participant of the room, as the room is when the function returns. *)
Theorem get_video_track_sound (st st' : St) (t : Track)
    (H : get_video_track st = (Ret (Some t), st')) :
  track_class t = RemoteVideoTrack /\
  In (room st') (snapshots st) /\
  exists identity participant key publication,
    In (identity, participant) (remote_participants (room st')) /\
    In (key, publication) (track_publications participant) /\
    track publication = Some t.
Proof.
  apply get_video_track_from_returns in H. destruct H as [Hscan Hin].
  apply scan_participants_found in Hscan.
  destruct Hscan as (i & p & key & pub & Hp & Hpub & Htrack & Hclass).
  split; [exact Hclass | ]. split; [exact Hin | ].
  exists i, p, key, pub. auto.
Qed.

End GetVideoTrack.

(** ** Coroutines and their scripts *)

Section Scripts.

Lemma cancel_in_app pre1 pre2 :
  cancel_in (pre1 ++ pre2) -> cancel_in pre1 \/ cancel_in pre2.
Proof.
  intros [r Hin]. apply in_app_or in Hin.
  destruct Hin; [left | right]; exists r; assumption.
Qed.

Lemma cancel_in_nil : ~ cancel_in [].
Proof. intros [r []]. Qed.

Lemma run_ok_here {A : Type} (st st' : St) (out : Res A) :
  oracle st' = oracle st ->
  out <> Pending -> out <> OutOfFuel ->
  run_ok st (out, st').
Proof.
  intros Hor Hp Hf. exists []. simpl. rewrite Hor.
  repeat split; try assumption; try contradiction.
  intros H. destruct (cancel_in_nil H).
Qed.

Lemma run_ok_then {A B : Type} (st st1 : St) (a : A) (out : Res B * St) :
  run_ok st (Ret a, st1) -> run_ok st1 out -> run_ok st out.
Proof.
  intros (pre1 & Hor1 & _ & _ & Hc1) (pre2 & Hor2 & Hp2 & Hf2 & Hc2).
  simpl in *. exists (pre1 ++ pre2).
  rewrite <- app_assoc, <- Hor2. repeat split; try assumption.
  intros H. apply cancel_in_app in H. destruct H as [H | H].
  - discriminate (Hc1 H).
  - exact (Hc2 H).
Qed.

(** Moving an outcome that is not a value to another result type. *)
Lemma run_ok_cast {A B : Type} (st st' : St) (r : Res A) (r' : Res B) :
  run_ok st (r, st') ->
  (r = Pending <-> r' = Pending) ->
  (r' = OutOfFuel -> r = OutOfFuel) ->
  (r = Raise CancelledError -> r' = Raise CancelledError) ->
  run_ok st (r', st').
Proof.
  intros (pre & Hor & Hp & Hf & Hc) Ep Ef Ec. exists pre. simpl in *.
  repeat split; try assumption.
  - intros H. apply Hp, Ep, H.
  - intros H. apply Hf, Ef, H.
  - intros H. apply Ec, Hc, H.
Qed.

Lemma run_ok_shorter {A : Type} (st : St) (out : Res A * St) :
  run_ok st out -> List.length (oracle (snd out)) <= List.length (oracle st).
Proof.
  intros (pre & Hor & _). rewrite Hor, length_app. lia.
Qed.

Lemma well_behaved_ret {A : Type} (a : A) : well_behaved (ret a).
Proof. intros st. apply run_ok_here; [reflexivity | discriminate ..]. Qed.

Lemma well_behaved_gets {A : Type} (f : St -> A) : well_behaved (gets f).
Proof. intros st. apply run_ok_here; [reflexivity | discriminate ..]. Qed.

Lemma well_behaved_modify (f : St -> St) :
  (forall st, oracle (f st) = oracle st) -> well_behaved (modify f).
Proof.
  intros Hf st. apply run_ok_here; [apply Hf | discriminate ..].
Qed.

Lemma well_behaved_emit ev : well_behaved (emit ev).
Proof. apply well_behaved_modify. reflexivity. Qed.

Lemma well_behaved_print line : well_behaved (print line).
Proof. apply well_behaved_emit. Qed.

Lemma well_behaved_update_image image : well_behaved (update_image image).
Proof. apply well_behaved_modify. reflexivity. Qed.

Lemma well_behaved_await ev : well_behaved (await ev).
Proof.
  intros st. unfold await. simpl.
  destruct (oracle st) as [ | [r v | r e] ws] eqn:Hor.
  - exists []. simpl. rewrite Hor. repeat split; try discriminate.
    intros H. destruct (cancel_in_nil H).
  - exists [Resume r v]. simpl. rewrite Hor. repeat split; try discriminate.
    intros [r' [H | []]]. discriminate.
  - exists [Throw r e]. simpl. rewrite Hor. repeat split; try discriminate.
    intros [r' [H | []]]. injection H as _ <-. reflexivity.
Qed.

Lemma well_behaved_bind {A B : Type} (m : M A) (k : A -> M B) :
  well_behaved m -> (forall a, well_behaved (k a)) -> well_behaved (bind m k).
Proof.
  intros Hm Hk st. unfold bind. specialize (Hm st).
  destruct (m st) as [[a | e | | ] st1].
  - exact (run_ok_then _ _ _ _ Hm (Hk a st1)).
  - apply (run_ok_cast _ _ _ _ Hm); [split | | ]; congruence.
  - apply (run_ok_cast _ _ _ _ Hm); [split | | ]; congruence.
  - destruct Hm as (_ & _ & _ & Hf & _). destruct Hf. reflexivity.
Qed.

Lemma well_behaved_sleep n : well_behaved (sleep n).
Proof.
  apply well_behaved_bind; [apply well_behaved_await | ].
  intros _. apply well_behaved_ret.
Qed.

(** A handler for [Exception] never sees [CancelledError], so the wake-ups
    taken before it runs threw none. *)
Lemma well_behaved_try_except {A : Type} (m : M A) (h : PyExc -> M A) :
  well_behaved m -> (forall e, well_behaved (h e)) ->
  well_behaved (try_except m isinstance_Exception h).
Proof.
  intros Hm Hh st. unfold try_except. specialize (Hm st).
  destruct (m st) as [[a | e | | ] st1]; try exact Hm.
  destruct e as [ | msg]; simpl; [exact Hm | ].
  destruct Hm as (pre1 & Hor1 & _ & _ & Hc1).
  destruct (Hh (Exception msg) st1) as (pre2 & Hor2 & Hp2 & Hf2 & Hc2).
  simpl in *. exists (pre1 ++ pre2).
  rewrite <- app_assoc, <- Hor2. repeat split; try assumption.
  intros H. apply cancel_in_app in H. destruct H as [H | H].
  - discriminate (Hc1 H).
  - exact (Hc2 H).
Qed.

Lemma productive_await ev : productive (await ev).
Proof.
  intros st a st'. unfold await. simpl.
  destruct (oracle st) as [ | [r v | r e] ws]; try discriminate.
  intros H. injection H as _ <-. simpl. lia.
Qed.

Lemma productive_bind_l {A B : Type} (m : M A) (k : A -> M B) :
  productive m -> (forall a, well_behaved (k a)) -> productive (bind m k).
Proof.
  intros Hm Hk st b st'. unfold bind.
  destruct (m st) as [[a | e | | ] st1] eqn:Em; try discriminate.
  intros Ek. apply Hm in Em.
  pose proof (run_ok_shorter _ _ (Hk a st1)) as Hle.
  rewrite Ek in Hle. simpl in Hle. lia.
Qed.

Lemma productive_bind_r {A B : Type} (m : M A) (k : A -> M B) :
  well_behaved m -> (forall a, productive (k a)) -> productive (bind m k).
Proof.
  intros Hm Hk st b st'. unfold bind.
  pose proof (run_ok_shorter _ _ (Hm st)) as Hle.
  destruct (m st) as [[a | e | | ] st1] eqn:Em; try discriminate.
  intros Ek. apply Hk in Ek. simpl in Hle. lia.
Qed.

Lemma productive_sleep n : productive (sleep n).
Proof.
  apply productive_bind_l; [apply productive_await | ].
  intros _. apply well_behaved_ret.
Qed.

Lemma productive_try_except {A : Type} (m : M A) catches (h : PyExc -> M A) :
  well_behaved m -> productive m -> (forall e, productive (h e)) ->
  productive (try_except m catches h).
Proof.
  intros Hwb Hm Hh st a st'. unfold try_except.
  pose proof (run_ok_shorter _ _ (Hwb st)) as Hle.
  destruct (m st) as [[a0 | e | | ] st1] eqn:Em; try discriminate.
  - intros H. injection H as <- <-. exact (Hm _ _ _ Em).
  - destruct (catches e); [ | discriminate].
    intros H. apply Hh in H. simpl in Hle. lia.
Qed.

End Scripts.

(** ** Loops *)

Section Loops.

Variable cond : St -> bool.
Variable body : M unit.
Hypothesis body_well_behaved : well_behaved body.
Hypothesis body_productive : productive body.

Lemma while_fuel_ok fuel :
  forall st,
    List.length (oracle st) < fuel ->
    run_ok st (while_fuel fuel cond body st).
Proof.
  induction fuel as [ | fuel IH]; intros st Hlen; [lia | ].
  cbn [while_fuel]. destruct (cond st).
  - pose proof (body_well_behaved st) as Hb.
    destruct (body st) as [[[] | e | | ] st1] eqn:Eb; try exact Hb.
    apply (run_ok_then _ _ _ _ Hb). apply IH.
    apply body_productive in Eb. lia.
  - apply run_ok_here; [reflexivity | discriminate ..].
Qed.

Lemma well_behaved_while : well_behaved (while_ cond body).
Proof. intros st. apply while_fuel_ok. lia. Qed.

(** Any budget above the length of the script gives the same run. *)
Lemma while_fuel_enough fuel1 :
  forall fuel2 st,
    List.length (oracle st) < fuel1 ->
    List.length (oracle st) < fuel2 ->
    while_fuel fuel1 cond body st = while_fuel fuel2 cond body st.
Proof.
  induction fuel1 as [ | fuel1 IH]; intros fuel2 st H1 H2; [lia | ].
  destruct fuel2 as [ | fuel2]; [lia | ].
  cbn [while_fuel]. destruct (cond st); [ | reflexivity].
  destruct (body st) as [[[] | e | | ] st1] eqn:Eb; try reflexivity.
  apply body_productive in Eb. apply IH; lia.
Qed.

(** The loop, unrolled once. *)
Lemma while_unfold st :
  while_ cond body st =
    if cond st then (body ;; while_ cond body) st else (Ret tt, st).
Proof.
  unfold while_ at 1. cbn [while_fuel]. destruct (cond st); [ | reflexivity].
  unfold bind.
  destruct (body st) as [[[] | e | | ] st1] eqn:Eb; try reflexivity.
  unfold while_. apply body_productive in Eb.
  apply while_fuel_enough; lia.
Qed.

End Loops.

Section AsyncFor.

Variable body : VideoFrame -> M unit.
Hypothesis body_well_behaved : forall frame, well_behaved (body frame).

Lemma async_for_fuel_ok fuel :
  forall st,
    List.length (oracle st) < fuel ->
    run_ok st (async_for_fuel fuel body st).
Proof.
  induction fuel as [ | fuel IH]; intros st Hlen; [lia | ].
  cbn [async_for_fuel].
  pose proof (well_behaved_await EvNextFrame st) as Ha.
  destruct (await EvNextFrame st) as [[[frame | ] | e | | ] st1] eqn:Ea.
  - apply (run_ok_then _ _ _ _ Ha).
    apply productive_await in Ea.
    pose proof (body_well_behaved frame st1) as Hb.
    pose proof (run_ok_shorter _ _ Hb) as Hle.
    destruct (body frame st1) as [[[] | e | | ] st2] eqn:Eb; try exact Hb.
    apply (run_ok_then _ _ _ _ Hb). apply IH. simpl in Hle. lia.
  - apply (run_ok_cast _ _ _ _ Ha); [split | | ]; congruence.
  - apply (run_ok_cast _ _ _ _ Ha); [split | | ]; congruence.
  - apply (run_ok_cast _ _ _ _ Ha); [split | | ]; congruence.
  - destruct Ha as (_ & _ & _ & Hf & _). destruct Hf. reflexivity.
Qed.

Lemma well_behaved_async_for : well_behaved (async_for body).
Proof. intros st. apply async_for_fuel_ok. lia. Qed.

Lemma async_for_fuel_productive fuel :
  forall st a st',
    async_for_fuel fuel body st = (Ret a, st') ->
    List.length (oracle st') < List.length (oracle st).
Proof.
  induction fuel as [ | fuel IH]; intros st a st'; cbn [async_for_fuel];
    [discriminate | ].
  destruct (await EvNextFrame st) as [[[frame | ] | e | | ] st1] eqn:Ea;
    try discriminate; apply productive_await in Ea.
  - pose proof (run_ok_shorter _ _ (body_well_behaved frame st1)) as Hle.
    destruct (body frame st1) as [[[] | e | | ] st2] eqn:Eb; try discriminate.
    intros H. apply IH in H. simpl in Hle. lia.
  - intros H. injection H as _ <-. exact Ea.
Qed.

Lemma productive_async_for : productive (async_for body).
Proof. intros st a st'. apply async_for_fuel_productive. Qed.

End AsyncFor.

(** ** process_video *)

Section ProcessVideo.

Lemma well_behaved_get_video_track_from attempts :
  well_behaved (get_video_track_from attempts).
Proof.
  induction attempts as [ | attempts IH]; cbn [get_video_track_from].
  - apply well_behaved_ret.
  - apply well_behaved_bind; [apply well_behaved_gets | ].
    intros r. destruct (scan_participants (remote_participants r)).
    + apply well_behaved_bind; [apply well_behaved_print | ].
      intros _. apply well_behaved_ret.
    + apply well_behaved_bind; [apply well_behaved_sleep | ].
      intros _. exact IH.
Qed.

Lemma well_behaved_process_video_try : well_behaved process_video_try.
Proof.
  apply well_behaved_bind; [apply well_behaved_get_video_track_from | ].
  intros [t | ].
  - apply well_behaved_bind; [apply well_behaved_print | ].
    intros _. apply well_behaved_bind; [apply well_behaved_emit | ].
    intros _. apply well_behaved_async_for, well_behaved_update_image.
  - apply well_behaved_bind; [apply well_behaved_print | ].
    intros _. apply well_behaved_sleep.
Qed.

Lemma productive_process_video_try : productive process_video_try.
Proof.
  apply productive_bind_r; [apply well_behaved_get_video_track_from | ].
  intros [t | ].
  - apply productive_bind_r; [apply well_behaved_print | ].
    intros _. apply productive_bind_r; [apply well_behaved_emit | ].
    intros _. apply productive_async_for, well_behaved_update_image.
  - apply productive_bind_r; [apply well_behaved_print | ].
    intros _. apply productive_sleep.
Qed.

Lemma well_behaved_process_video_except e :
  well_behaved (process_video_except e).
Proof.
  apply well_behaved_bind; [apply well_behaved_print | ].
  intros _. apply well_behaved_sleep.
Qed.

Lemma productive_process_video_except e : productive (process_video_except e).
Proof.
  apply productive_bind_r; [apply well_behaved_print | ].
  intros _. apply productive_sleep.
Qed.

Lemma well_behaved_process_video_iteration :
  well_behaved process_video_iteration.
Proof.
  apply well_behaved_try_except.
  - apply well_behaved_process_video_try.
  - apply well_behaved_process_video_except.
Qed.

Lemma productive_process_video_iteration : productive process_video_iteration.
Proof.
  apply productive_try_except.
  - apply well_behaved_process_video_try.
  - apply productive_process_video_try.
  - apply productive_process_video_except.
Qed.

Lemma well_behaved_process_video : well_behaved process_video.
Proof.
  apply well_behaved_try_except.
  - apply well_behaved_while.
    + apply well_behaved_process_video_iteration.
    + apply productive_process_video_iteration.
  - intros e. apply well_behaved_print.
Qed.

(** The outer handler leaves [CancelledError] as the only way to raise. *)
Lemma process_video_raises st e :
  fst (process_video st) = Raise e -> e = CancelledError.
Proof.
  unfold process_video, try_except.
  destruct (while_ connected process_video_iteration st)
    as [[[] | e0 | | ] st1]; try discriminate.
  destruct e0 as [ | msg]; simpl.
  - intros H. injection H as <-. reflexivity.
  - discriminate.
Qed.

(** A task asked to cancel has ended, one way or the other. *)
Lemma task_outcome_cases task r :
  task_outcome task r = Ret tt \/ task_outcome task r = Raise CancelledError.
Proof.
  destruct task as [ | bg]; simpl; [right; reflexivity | ].
  set (st := set_oracle (oracle bg ++ [Throw r CancelledError]) bg).
  destruct (well_behaved_process_video st) as (pre & Hor & Hp & Hf & Hc).
  pose proof (process_video_raises st) as Hraise.
  destruct (fst (process_video st)) as [[] | e | | ] eqn:E.
  - left; reflexivity.
  - right. rewrite (Hraise e); reflexivity.
  - specialize (Hp eq_refl). rewrite Hp, app_nil_r in Hor.
    assert (Hin : cancel_in pre).
    { exists r. rewrite <- Hor. simpl.
      apply in_or_app. right. left. reflexivity. }
    discriminate (Hc Hin).
  - destruct Hf. reflexivity.
Qed.

End ProcessVideo.

Section ProcessVideoErrors.

Lemma process_video_unfold st :
  process_video st =
    try_except
      (fun st0 =>
         if connected st0
         then (process_video_iteration ;;
               while_ connected process_video_iteration) st0
         else (Ret tt, st0))
      isinstance_Exception
      (fun e => emit (video_processing_task_error e))
      st.
Proof.
  unfold process_video, try_except.
  rewrite (while_unfold _ _ productive_process_video_iteration).
  reflexivity.
Qed.

Lemma process_video_after_error st st1 e r v ws :
  connected st = true ->
  process_video_try st = (Raise e, st1) ->
  isinstance_Exception e = true ->
  oracle st1 = Resume r v :: ws ->
  process_video st =
    process_video
      (set_room r
         (set_oracle ws
            (add_event (EvSleep 1)
               (add_event (video_processing_error e) st1)))).
Proof.
  intros Hconnected Hraised Hexception Hwake.
  rewrite process_video_unfold. unfold try_except at 1.
  rewrite Hconnected. unfold bind at 1.
  unfold process_video_iteration at 1, try_except at 1.
  rewrite Hraised, Hexception.
  unfold process_video_except, bind at 1, print, emit, modify.
  rewrite (sleep_resume 1 (add_event _ st1) r v ws Hwake).
  reflexivity.
Qed.

Lemma process_video_try_opens st t :
  scan_participants (remote_participants (room st)) = Some t ->
  process_video_try st =
    match oracle st with
    | [] =>
        (Pending,
         add_event EvNextFrame
           (add_event (EvVideoStream t)
              (add_event (EvPrint "Starting video stream processing...")
                 (add_event (using_video_track t) st))))
    | Throw r e :: ws =>
        (Raise e,
         set_room r
           (set_oracle ws
              (add_event EvNextFrame
                 (add_event (EvVideoStream t)
                    (add_event (EvPrint "Starting video stream processing...")
                       (add_event (using_video_track t) st))))))
    | Resume _ _ :: _ => process_video_try st
    end.
Proof.
  intros Hscan.
  destruct (oracle st) as [ | [r v | r e] ws] eqn:Hor; [ | reflexivity | ].
  - unfold process_video_try, get_video_track. cbn [get_video_track_from].
    cbv beta iota delta [bind gets print emit modify ret]. rewrite Hscan.
    unfold async_for. cbn [async_for_fuel].
    erewrite await_pending by exact Hor. reflexivity.
  - unfold process_video_try, get_video_track. cbn [get_video_track_from].
    cbv beta iota delta [bind gets print emit modify ret]. rewrite Hscan.
    unfold async_for. cbn [async_for_fuel].
    erewrite await_throw by exact Hor. reflexivity.
Qed.

(** However often the stream fails, the task logs the error, sleeps, finds
    the track and opens the stream again: after [n] failures it is waiting
    for a frame once more. *)
Lemma process_video_keeps_retrying (r : Room) (t : Track) (msg : string) :
  is_connected r = true ->
  scan_participants (remote_participants r) = Some t ->
  forall n st,
    room st = r ->
    oracle st =
      List.concat (repeat [Throw r (Exception msg); Resume r None] n) ->
    exists st',
      process_video st = (Pending, st') /\
      trace st' =
        trace st ++ List.concat (repeat (error_round t (Exception msg)) n)
                 ++ stream_opening t.
Proof.
  intros Hconn Hscan. induction n as [ | n IH]; intros st Hroom Hor.
  - rewrite process_video_unfold. unfold try_except, connected.
    rewrite Hroom, Hconn. unfold bind at 1.
    unfold process_video_iteration, try_except.
    rewrite (process_video_try_opens st t) by (rewrite Hroom; exact Hscan).
    simpl in Hor. rewrite Hor.
    eexists. split; [reflexivity | ].
    simpl. rewrite <- !app_assoc. reflexivity.
  - simpl in Hor.
    assert (Htry := process_video_try_opens st t).
    rewrite Hroom, Hor in Htry. specialize (Htry Hscan).
    erewrite process_video_after_error;
      [ | unfold connected; rewrite Hroom; exact Hconn
        | exact Htry | reflexivity | reflexivity ].
    edestruct IH as (st' & Hrun & Htrace);
      [ | | exists st'; split; [exact Hrun | ] ].
    + reflexivity.
    + reflexivity.
    + rewrite Htrace. simpl. rewrite <- !app_assoc. reflexivity.
Qed.

End ProcessVideoErrors.

(** ** entrypoint *)

Section Entrypoint.

Variable task : TaskProgress.

Lemma shutdown_run st :
  shutdown task st =
    (Ret tt, add_event EvAwaitTask (add_event EvCancelTask st)).
Proof.
  unfold shutdown, bind at 1, emit at 1, modify, try_except, await_task.
  unfold bind, emit, modify.
  destruct (task_outcome_cases task (room (add_event EvAwaitTask
              (add_event EvCancelTask st)))) as [E | E];
    rewrite E; reflexivity.
Qed.

Lemma idle_loop_unfold st :
  idle_loop st =
    if connected st then (sleep 1 ;; idle_loop) st else (Ret tt, st).
Proof. apply while_unfold, productive_sleep. Qed.

Lemma idle_loop_returns k :
  forall st r,
    resumed k st ->
    Forall (fun r0 => is_connected r0 = true) (firstn k (snapshots st)) ->
    nth_error (snapshots st) k = Some r ->
    is_connected r = false ->
    exists st',
      idle_loop st = (Ret tt, st') /\
      room st' = r /\
      oracle st' = skipn k (oracle st) /\
      function_ctx st' = function_ctx st /\
      trace st' = trace st ++ repeat (EvSleep 1) k.
Proof.
  induction k as [ | k IH]; intros st r Hres Hconn Hnth Hdisc;
    rewrite idle_loop_unfold; unfold connected.
  - simpl in Hnth. injection Hnth as <-. rewrite Hdisc.
    exists st. simpl. rewrite app_nil_r. repeat split.
  - simpl in Hconn. apply Forall_cons_iff in Hconn.
    destruct Hconn as [Hconn0 Hconn]. rewrite Hconn0.
    destruct (resumed_S _ _ Hres) as (r1 & v & ws & Hor & Hres').
    unfold bind. rewrite (sleep_resume _ _ _ _ _ Hor).
    unfold snapshots in Hnth. rewrite Hor in Hconn, Hnth. simpl in Hnth.
    destruct (IH _ r (Hres' (EvSleep 1)) Hconn Hnth Hdisc)
      as (st' & Hrun & Hroom & Horacle & Hctx & Htrace).
    exists st'. rewrite Hor. simpl in Horacle, Hctx, Htrace.
    repeat split; try assumption.
    rewrite Htrace, <- app_assoc. reflexivity.
Qed.

Lemma run_until_disconnected_returns k st r :
  resumed k st ->
  Forall (fun r0 => is_connected r0 = true) (firstn k (snapshots st)) ->
  nth_error (snapshots st) k = Some r ->
  is_connected r = false ->
  exists st',
    run_until_disconnected task st = (Ret tt, st') /\
    room st' = r /\
    trace st' =
      trace st ++ repeat (EvSleep 1) k ++ [EvCancelTask; EvAwaitTask].
Proof.
  intros Hres Hconn Hnth Hdisc.
  destruct (idle_loop_returns k st r Hres Hconn Hnth Hdisc)
    as (st1 & Hrun & Hroom & _ & _ & Htrace).
  unfold run_until_disconnected, try_finally. rewrite Hrun.
  unfold bind. rewrite shutdown_run.
  eexists. split; [reflexivity | ]. simpl. split; [exact Hroom | ].
  rewrite Htrace, <- !app_assoc. reflexivity.
Qed.

(** C4: once the idle loop sees that the room is no longer connected, after
    [k] rounds, [entrypoint] asks for the cancellation of the video task and
    awaits it; the task has ended by then, returned or cancelled, and the
    [try ... finally] statement completes without raising. *)
Theorem entrypoint_cancels_video_task (st : St) (k : nat) (r : Room)
    (Hresumed : resumed k st)
    (Hconnected :
       Forall (fun r0 => is_connected r0 = true) (firstn k (snapshots st)))
    (Hsnapshot : nth_error (snapshots st) k = Some r)
    (Hdisconnected : is_connected r = false) :
  exists st',
    run_until_disconnected task st = (Ret tt, st') /\
    trace st' =
      trace st ++ repeat (EvSleep 1) k ++ [EvCancelTask; EvAwaitTask] /\
    (task_outcome task r = Ret tt \/
     task_outcome task r = Raise CancelledError).
Proof.
  destruct (run_until_disconnected_returns k st r
              Hresumed Hconnected Hsnapshot Hdisconnected)
    as (st' & Hrun & _ & Htrace).
  exists st'. repeat split; try assumption.
  apply task_outcome_cases.
Qed.

End Entrypoint.

Section Lifecycle.

Variable task : TaskProgress.

Lemma prefix_of_refl {A : Type} (l : list A) : prefix_of l l.
Proof. exists []. rewrite app_nil_r. reflexivity. Qed.

Lemma prefix_of_app {A : Type} (l l1 l2 : list A) :
  prefix_of l1 l2 -> prefix_of (l ++ l1) (l ++ l2).
Proof. intros [rest ->]. exists rest. rewrite app_assoc. reflexivity. Qed.

Lemma idle_loop_fuel_trace fuel :
  forall st,
    exists k,
      trace (snd (while_fuel fuel connected (sleep 1) st)) =
        trace st ++ repeat (EvSleep 1) k.
Proof.
  induction fuel as [ | fuel IH]; intros st; cbn [while_fuel].
  - exists 0. simpl. rewrite app_nil_r. reflexivity.
  - destruct (connected st).
    + destruct (oracle st) as [ | [r v | r e] ws] eqn:Hor.
      * rewrite (sleep_pending _ _ Hor). exists 1. reflexivity.
      * rewrite (sleep_resume _ _ _ _ _ Hor).
        destruct (IH (set_room r (set_oracle ws (add_event (EvSleep 1) st))))
          as [k Hk].
        exists (S k). rewrite Hk. simpl. rewrite <- app_assoc. reflexivity.
      * rewrite (sleep_throw _ _ _ _ _ Hor). exists 1. reflexivity.
    + exists 0. simpl. rewrite app_nil_r. reflexivity.
Qed.

Lemma run_until_disconnected_trace st :
  exists k evs,
    trace (snd (run_until_disconnected task st)) = trace st ++ evs /\
    prefix_of evs (repeat (EvSleep 1) k ++ [EvCancelTask; EvAwaitTask]) /\
    (fst (run_until_disconnected task st) = Ret tt ->
     evs = repeat (EvSleep 1) k ++ [EvCancelTask; EvAwaitTask]).
Proof.
  unfold run_until_disconnected, try_finally, idle_loop, while_.
  destruct (idle_loop_fuel_trace (S (List.length (oracle st))) st) as [k Hk].
  destruct (while_fuel _ connected (sleep 1) st) as [[[] | e | | ] st1];
    simpl in Hk; exists k.
  - unfold bind. rewrite shutdown_run.
    exists (repeat (EvSleep 1) k ++ [EvCancelTask; EvAwaitTask]). simpl.
    rewrite Hk, <- !app_assoc.
    split; [reflexivity | ]. split; [apply prefix_of_refl | reflexivity].
  - unfold bind. rewrite shutdown_run.
    exists (repeat (EvSleep 1) k ++ [EvCancelTask; EvAwaitTask]). simpl.
    rewrite Hk, <- !app_assoc.
    split; [reflexivity | ]. split; [apply prefix_of_refl | discriminate].
  - exists (repeat (EvSleep 1) k). simpl.
    split; [exact Hk | ]. split; [eexists; reflexivity | discriminate].
  - exists (repeat (EvSleep 1) k). simpl.
    split; [exact Hk | ]. split; [eexists; reflexivity | discriminate].
Qed.

(** In every initial segment of the lifecycle, the greeting comes before
    the creation of the video task. *)
Lemma lifecycle_greets_first room_name idle evs pre post :
  prefix_of evs (lifecycle room_name idle) ->
  evs = pre ++ EvCreateTask :: post ->
  In (EvGenerateReply greeting) pre.
Proof.
  intros [rest H] ->. unfold lifecycle, setup_events in H. simpl in H.
  do 11 (destruct pre as [ | ? pre];
         [discriminate H | simpl in H; injection H as <- H]).
  simpl. do 10 right. left. reflexivity.
Qed.


Lemma in_budget_bind {A B : Type} (m : M A) (k : A -> M B) :
  in_budget m -> (forall a, in_budget (k a)) -> in_budget (bind m k).
Proof.
  intros Hm Hk st. unfold bind. specialize (Hm st).
  destruct (m st) as [[a | e | | ] st1]; simpl in *;
    [apply Hk | discriminate | discriminate | destruct Hm; reflexivity].
Qed.

Lemma in_budget_well_behaved {A : Type} (m : M A) :
  well_behaved m -> in_budget m.
Proof. intros Hm st. destruct (Hm st) as (_ & _ & _ & Hf & _). exact Hf. Qed.

Lemma in_budget_run_until_disconnected :
  in_budget (run_until_disconnected task).
Proof.
  intros st. unfold run_until_disconnected, try_finally.
  assert (Hidle : well_behaved idle_loop).
  { apply well_behaved_while;
      [apply well_behaved_sleep | apply productive_sleep]. }
  pose proof (in_budget_well_behaved _ Hidle st) as Hf.
  destruct (idle_loop st) as [[[] | e | | ] st1]; simpl in *;
    try discriminate; try exact Hf;
    unfold bind; rewrite shutdown_run; discriminate.
Qed.

Lemma in_budget_entrypoint : in_budget (entrypoint task).
Proof.
  unfold entrypoint.
  repeat (apply in_budget_bind;
          [ first [ apply in_budget_well_behaved, well_behaved_await
                  | apply in_budget_well_behaved, well_behaved_gets
                  | apply in_budget_well_behaved, well_behaved_emit
                  | apply in_budget_well_behaved, well_behaved_modify;
                    reflexivity ]
          | intros ? ]).
  apply in_budget_run_until_disconnected.
Qed.

Lemma entrypoint_setup st r1 v1 r2 v2 r3 v3 ws :
  oracle st = Resume r1 v1 :: Resume r2 v2 :: Resume r3 v3 :: ws ->
  exists st3,
    entrypoint task st = run_until_disconnected task st3 /\
    room st3 = r3 /\
    oracle st3 = ws /\
    trace st3 = trace st ++ setup_events (name r1).
Proof.
  intros Hor. unfold entrypoint.
  cbv beta iota delta [bind gets print emit modify ret].
  rewrite (await_resume _ _ _ _ _ Hor). cbv beta iota.
  erewrite await_resume by reflexivity. cbv beta iota.
  erewrite await_resume by reflexivity. cbv beta iota.
  eexists. split; [reflexivity | ].
  simpl. rewrite <- !app_assoc. repeat split.
Qed.

Lemma resumed_3 k st :
  resumed (3 + k) st ->
  exists r1 v1 r2 v2 r3 v3 ws,
    oracle st = Resume r1 v1 :: Resume r2 v2 :: Resume r3 v3 :: ws /\
    k <= List.length ws /\
    forallb is_resume (firstn k ws) = true.
Proof.
  unfold resumed. intros [Hlen Hall].
  destruct (oracle st) as [ | [r1 v1 | ? ?] [ | [r2 v2 | ? ?]
                            [ | [r3 v3 | ? ?] ws]]];
    simpl in *; try lia; try discriminate.
  exists r1, v1, r2, v2, r3, v3, ws. repeat split; [lia | assumption].
Qed.

Ltac stopped_early :=
  eexists;
  split; [simpl; rewrite <- ?app_assoc; simpl; reflexivity | ];
  split; [unfold prefix_of, lifecycle, setup_events; simpl;
          eexists; reflexivity | ];
  split; [discriminate | ];
  intros pre post H;
  repeat (destruct pre as [ | ? pre];
          [discriminate H | simpl in H; injection H as <- H]);
  destruct pre; discriminate H.

(** C7: in every run of [entrypoint] the steps taken are an initial segment
    of: connect, build the agent, build the tool context, build the session
    from its VAD, STT, LLM and TTS handles, start the session, greet, create
    the video task, idle, cancel the video task and await it; the segment is
    the whole sequence when [entrypoint] returns, and the greeting always
    precedes the creation of the video task.  A run in which the three
    awaited SDK calls succeed and the room is found disconnected after [k]
    idle rounds does return, having taken every step. *)
Theorem entrypoint_lifecycle_order (st : St) :
  (exists room_name idle evs,
     trace (snd (entrypoint task st)) = trace st ++ evs /\
     prefix_of evs (lifecycle room_name idle) /\
     (fst (entrypoint task st) = Ret tt -> evs = lifecycle room_name idle) /\
     (forall pre post,
        evs = pre ++ EvCreateTask :: post ->
        In (EvGenerateReply greeting) pre)) /\
  (forall k r1 r,
     resumed (3 + k) st ->
     nth_error (snapshots st) 1 = Some r1 ->
     Forall (fun r0 => is_connected r0 = true)
            (firstn k (skipn 3 (snapshots st))) ->
     nth_error (snapshots st) (3 + k) = Some r ->
     is_connected r = false ->
     exists st',
       entrypoint task st = (Ret tt, st') /\
       trace st' = trace st ++ lifecycle (name r1) k).
Proof.
  split.
  - destruct (oracle st) as [ | [r1 v1 | r1 e1] ws1] eqn:Hor.
    + exists (name (room st)), 0. unfold entrypoint.
      cbv beta iota delta [bind gets print emit modify ret].
      rewrite (await_pending _ _ Hor). stopped_early.
    + exists (name r1).
      destruct ws1 as [ | [r2 v2 | r2 e2] ws2].
      * exists 0. unfold entrypoint.
        cbv beta iota delta [bind gets print emit modify ret].
        rewrite (await_resume _ _ _ _ _ Hor). cbv beta iota.
        erewrite await_pending by reflexivity. stopped_early.
      * destruct ws2 as [ | [r3 v3 | r3 e3] ws].
        -- exists 0. unfold entrypoint.
           cbv beta iota delta [bind gets print emit modify ret].
           rewrite (await_resume _ _ _ _ _ Hor). cbv beta iota.
           erewrite await_resume by reflexivity. cbv beta iota.
           erewrite await_pending by reflexivity. stopped_early.
        -- destruct (entrypoint_setup _ _ _ _ _ _ _ _ Hor)
             as (st3 & Hrun & _ & _ & Htrace).
           destruct (run_until_disconnected_trace st3)
             as (k & evs & Hevs & Hpre & Hret).
           rewrite Hrun.
           exists k, (setup_events (name r1) ++ evs).
           assert (Hprefix : prefix_of (setup_events (name r1) ++ evs)
                               (lifecycle (name r1) k))
             by (apply prefix_of_app, Hpre).
           split; [rewrite Hevs, Htrace, <- app_assoc; reflexivity | ].
           split; [exact Hprefix | ].
           split; [intros H; rewrite (Hret H); reflexivity | ].
           intros pre post H.
           exact (lifecycle_greets_first _ _ _ _ _ Hprefix H).
        -- exists 0. unfold entrypoint.
           cbv beta iota delta [bind gets print emit modify ret].
           rewrite (await_resume _ _ _ _ _ Hor). cbv beta iota.
           erewrite await_resume by reflexivity. cbv beta iota.
           erewrite await_throw by reflexivity. stopped_early.
      * exists 0. unfold entrypoint.
        cbv beta iota delta [bind gets print emit modify ret].
        rewrite (await_resume _ _ _ _ _ Hor). cbv beta iota.
        erewrite await_throw by reflexivity. stopped_early.
    + exists (name (room st)), 0. unfold entrypoint.
      cbv beta iota delta [bind gets print emit modify ret].
      rewrite (await_throw _ _ _ _ _ Hor). stopped_early.
  - intros k r1 r Hres Hr1 Hconn Hnth Hdisc.
    destruct (resumed_3 _ _ Hres)
      as (q1 & v1 & r2 & v2 & r3 & v3 & ws & Hor & Hlen & Hall).
    destruct (entrypoint_setup _ _ _ _ _ _ _ _ Hor)
      as (st3 & Hrun & Hroom & Horacle & Htrace).
    unfold snapshots in Hr1, Hconn, Hnth. rewrite Hor in Hr1, Hconn, Hnth.
    simpl in Hr1, Hconn, Hnth. injection Hr1 as <-.
    destruct (run_until_disconnected_returns task k st3 r)
      as (st' & Hrun' & _ & Htrace').
    + unfold resumed. rewrite Horacle. split; assumption.
    + unfold snapshots. rewrite Hroom, Horacle. exact Hconn.
    + unfold snapshots. rewrite Hroom, Horacle. exact Hnth.
    + exact Hdisc.
    + exists st'. rewrite Hrun. split; [exact Hrun' | ].
      rewrite Htrace', Htrace. unfold lifecycle.
      rewrite <- app_assoc. reflexivity.
Qed.

End Lifecycle.

(** ** The statements above, on sample runs *)

Section Witnesses.

Import Sample.

(** Frames of the stream end up in the cache, the last one staying. *)
Example process_video_caches_frames :
  let run :=
    process_video
      (start video_room
         [Resume video_room (Some frame1); Resume video_room (Some frame2)]) in
  fst run = Pending /\
  latest_image (function_ctx (snd run)) = Some frame2.
Proof. split; reflexivity. Qed.

(** The search steps over a publication without a track and over an audio
    track. *)
Example scan_participants_video_room :
  scan_participants (remote_participants video_room) = Some video /\
  scan_participants (remote_participants audio_room) = None.
Proof. split; reflexivity. Qed.

(** Cancelled while it waits for a frame, the task ends with the
    cancellation; a task that saw the room disconnect has returned before. *)
Example task_outcome_samples :
  task_outcome (Started (start video_room [Resume video_room (Some frame1)]))
               closed_room = Raise CancelledError /\
  task_outcome (Started (start video_room [Resume closed_room None]))
               closed_room = Ret tt /\
  task_outcome NotStarted closed_room = Raise CancelledError.
Proof. repeat split; reflexivity. Qed.

(** A search cut short by a cancellation neither returns a track nor
    [None]. *)
Example get_video_track_cancelled :
  fst (get_video_track
         (start audio_room
            [Resume audio_room None; Throw audio_room CancelledError])) =
    Raise CancelledError.
Proof. reflexivity. Qed.

Lemma analyze_image_ignores_frame_content_witness :
  latest_image (function_ctx (seen frame1 (start video_room []))) =
    Some frame1 /\
  latest_image (function_ctx (seen frame2 (start empty_room []))) =
    Some frame2 /\
  fst (analyze_image "what is this?" (seen frame1 (start video_room []))) =
    fst (analyze_image "what is this?" (seen frame2 (start empty_room []))) /\
  exists line,
    trace (snd (analyze_image "what is this?"
                  (seen frame1 (start video_room [])))) =
      trace (seen frame1 (start video_room [])) ++ [EvPrint line] /\
    trace (snd (analyze_image "what is this?"
                  (seen frame2 (start empty_room [])))) =
      trace (seen frame2 (start empty_room [])) ++ [EvPrint line].
Proof.
  split; [reflexivity | ]. split; [reflexivity | ].
  apply (analyze_image_ignores_frame_content "what is this?"
           (seen frame1 (start video_room []))
           (seen frame2 (start empty_room []))
           frame1 frame2);
    reflexivity.
Defined.

Lemma get_video_track_polling_witness :
  (2 < 30 /\
   resumed 2 (start audio_room
                [Resume audio_room None; Resume video_room None]) /\
   Forall no_video_track
     (firstn 2 (snapshots (start audio_room
                             [Resume audio_room None;
                              Resume video_room None]))) /\
   nth_error (snapshots (start audio_room
                           [Resume audio_room None; Resume video_room None]))
             2 = Some video_room /\
   video_track_published video_room video /\
   exists t' st',
     get_video_track (start audio_room
                        [Resume audio_room None; Resume video_room None]) =
       (Ret (Some t'), st') /\
     video_track_published video_room t' /\
     trace st' =
       [] ++ repeat (EvSleep 1) 2 ++ [using_video_track t']) /\
  (resumed 30 (start audio_room (repeat (Resume audio_room None) 30)) /\
   Forall no_video_track
     (firstn 30 (snapshots (start audio_room
                              (repeat (Resume audio_room None) 30)))) /\
   exists st',
     get_video_track (start audio_room (repeat (Resume audio_room None) 30)) =
       (Ret None, st') /\
     trace st' = [] ++ repeat (EvSleep 1) 30).
Proof.
  assert (Hno : no_video_track audio_room)
    by (apply scan_participants_missed; reflexivity).
  assert (Hpub : video_track_published video_room video)
    by (apply scan_participants_found; reflexivity).
  assert (Hres2 : resumed 2 (start audio_room
                    [Resume audio_room None; Resume video_room None]))
    by (split; [simpl; lia | reflexivity]).
  assert (Hno2 : Forall no_video_track
                   (firstn 2 (snapshots (start audio_room
                      [Resume audio_room None; Resume video_room None]))))
    by (simpl; repeat constructor; exact Hno).
  assert (Hres30 : resumed 30 (start audio_room
                     (repeat (Resume audio_room None) 30)))
    by (split; [simpl; lia | reflexivity]).
  assert (Hno30 : Forall no_video_track
                    (firstn 30 (snapshots (start audio_room
                       (repeat (Resume audio_room None) 30)))))
    by (simpl; repeat constructor; exact Hno).
  split.
  - split; [lia | ]. split; [exact Hres2 | ]. split; [exact Hno2 | ].
    split; [reflexivity | ]. split; [exact Hpub | ].
    apply (proj1 (get_video_track_polling
                    (start audio_room
                       [Resume audio_room None; Resume video_room None]))
                 2 video_room video);
      [lia | exact Hres2 | exact Hno2 | reflexivity | exact Hpub].
  - split; [exact Hres30 | ]. split; [exact Hno30 | ].
    apply (proj2 (get_video_track_polling
                    (start audio_room (repeat (Resume audio_room None) 30))));
      [exact Hres30 | exact Hno30].
Defined.

Lemma get_video_track_immediate_witness :
  video_track_published (room (start video_room [])) video /\
  exists t',
    video_track_published (room (start video_room [])) t' /\
    get_video_track (start video_room []) =
      (Ret (Some t'), add_event (using_video_track t') (start video_room [])).
Proof.
  assert (Hpub : video_track_published (room (start video_room [])) video)
    by (apply scan_participants_found; reflexivity).
  split; [exact Hpub | ].
  apply (get_video_track_immediate (start video_room []) video Hpub).
Defined.

Lemma get_video_track_sound_witness :
  get_video_track (start audio_room [Resume video_room None]) =
    (Ret (Some video),
     mkSt video_room AssistantFunction_init []
          [EvSleep 1; using_video_track video]) /\
  track_class video = RemoteVideoTrack /\
  In video_room (snapshots (start audio_room [Resume video_room None])) /\
  exists identity participant key publication,
    In (identity, participant) (remote_participants video_room) /\
    In (key, publication) (track_publications participant) /\
    track publication = Some video.
Proof.
  split; [reflexivity | ].
  apply (get_video_track_sound
           (start audio_room [Resume video_room None])
           (mkSt video_room AssistantFunction_init []
                 [EvSleep 1; using_video_track video])
           video).
  reflexivity.
Defined.

Lemma entrypoint_cancels_video_task_witness :
  resumed 2 (start empty_room
               [Resume video_room None; Resume closed_room None]) /\
  Forall (fun r0 => is_connected r0 = true)
    (firstn 2 (snapshots (start empty_room
                            [Resume video_room None;
                             Resume closed_room None]))) /\
  nth_error (snapshots (start empty_room
                          [Resume video_room None; Resume closed_room None]))
            2 = Some closed_room /\
  is_connected closed_room = false /\
  exists st',
    run_until_disconnected
      (Started (start video_room [Resume video_room (Some frame1)]))
      (start empty_room [Resume video_room None; Resume closed_room None]) =
      (Ret tt, st') /\
    trace st' =
      [] ++ repeat (EvSleep 1) 2 ++ [EvCancelTask; EvAwaitTask] /\
    (task_outcome
       (Started (start video_room [Resume video_room (Some frame1)]))
       closed_room = Ret tt \/
     task_outcome
       (Started (start video_room [Resume video_room (Some frame1)]))
       closed_room = Raise CancelledError).
Proof.
  assert (Hres : resumed 2 (start empty_room
                   [Resume video_room None; Resume closed_room None]))
    by (split; [simpl; lia | reflexivity]).
  assert (Hconn : Forall (fun r0 => is_connected r0 = true)
            (firstn 2 (snapshots (start empty_room
                                    [Resume video_room None;
                                     Resume closed_room None]))))
    by (simpl; repeat constructor).
  split; [exact Hres | ]. split; [exact Hconn | ].
  split; [reflexivity | ]. split; [reflexivity | ].
  apply (entrypoint_cancels_video_task
           (Started (start video_room [Resume video_room (Some frame1)]))
           (start empty_room [Resume video_room None; Resume closed_room None])
           2 closed_room Hres Hconn);
    reflexivity.
Defined.

Lemma entrypoint_lifecycle_order_witness :
  (exists room_name idle evs,
     trace (snd (entrypoint NotStarted
                   (start closed_room
                      [Resume empty_room None; Resume empty_room None;
                       Resume empty_room None; Resume closed_room None]))) =
       [] ++ evs /\
     prefix_of evs (lifecycle room_name idle) /\
     (fst (entrypoint NotStarted
             (start closed_room
                [Resume empty_room None; Resume empty_room None;
                 Resume empty_room None; Resume closed_room None])) = Ret tt ->
      evs = lifecycle room_name idle) /\
     (forall pre post,
        evs = pre ++ EvCreateTask :: post ->
        In (EvGenerateReply greeting) pre)) /\
  resumed (3 + 1)
    (start closed_room
       [Resume empty_room None; Resume empty_room None;
        Resume empty_room None; Resume closed_room None]) /\
  nth_error
    (snapshots (start closed_room
                  [Resume empty_room None; Resume empty_room None;
                   Resume empty_room None; Resume closed_room None]))
    1 = Some empty_room /\
  Forall (fun r0 => is_connected r0 = true)
    (firstn 1 (skipn 3
       (snapshots (start closed_room
                     [Resume empty_room None; Resume empty_room None;
                      Resume empty_room None; Resume closed_room None])))) /\
  nth_error
    (snapshots (start closed_room
                  [Resume empty_room None; Resume empty_room None;
                   Resume empty_room None; Resume closed_room None]))
    (3 + 1) = Some closed_room /\
  is_connected closed_room = false /\
  exists st',
    entrypoint NotStarted
      (start closed_room
         [Resume empty_room None; Resume empty_room None;
          Resume empty_room None; Resume closed_room None]) = (Ret tt, st') /\
    trace st' = [] ++ lifecycle (name empty_room) 1.
Proof.
  pose (st := start closed_room
                [Resume empty_room None; Resume empty_room None;
                 Resume empty_room None; Resume closed_room None]).
  assert (Hres : resumed (3 + 1) st) by (split; [simpl; lia | reflexivity]).
  assert (Hconn : Forall (fun r0 => is_connected r0 = true)
                    (firstn 1 (skipn 3 (snapshots st))))
    by (simpl; repeat constructor).
  split; [exact (proj1 (entrypoint_lifecycle_order NotStarted st)) | ].
  split; [exact Hres | ]. split; [reflexivity | ]. split; [exact Hconn | ].
  split; [reflexivity | ]. split; [reflexivity | ].
  exact (proj2 (entrypoint_lifecycle_order NotStarted st)
           1 empty_room closed_room
           Hres eq_refl Hconn eq_refl eq_refl).
Defined.


End Witnesses.

(** * Further properties of the code *)

(** ** get_video_track: order, bounds and exact outcomes *)

Section SearchOrder.

Lemma scan_publications_first pubs t :
  scan_publications pubs = Some t ->
  exists pubs_before key publication pubs_after,
    pubs = pubs_before ++ (key, publication) :: pubs_after /\
    track publication = Some t /\
    track_class t = RemoteVideoTrack /\
    no_video_publication pubs_before.
Proof.
  induction pubs as [ | [key pub] rest IH]; simpl; [discriminate | ].
  assert (Hskip : track pub = None \/
                  (exists t0, track pub = Some t0 /\
                              track_class t0 <> RemoteVideoTrack) ->
                  scan_publications rest = Some t ->
                  exists pubs_before key0 publication pubs_after,
                    (key, pub) :: rest =
                      pubs_before ++ (key0, publication) :: pubs_after /\
                    track publication = Some t /\
                    track_class t = RemoteVideoTrack /\
                    no_video_publication pubs_before).
  { intros Hpub H.
    destruct (IH H) as (before & k & p & after & -> & Htrack & Hclass & Hno).
    exists ((key, pub) :: before), k, p, after.
    repeat split; try assumption.
    intros k0 p0 t0 [Heq | Hin] Ht0.
    - injection Heq as <- <-.
      destruct Hpub as [Hnone | (t1 & Hsome & Hother)]; congruence.
    - exact (Hno k0 p0 t0 Hin Ht0). }
  destruct (track pub) as [t0 | ] eqn:Etrack.
  - unfold isinstance_RemoteVideoTrack.
    destruct (track_class t0) eqn:Eclass;
      try (apply Hskip; right; exists t0; split; [reflexivity | congruence]).
    intros H. injection H as <-.
    exists [], key, pub, rest. repeat split; try assumption.
    intros k0 p0 t1 [].
  - apply Hskip. left. reflexivity.
Qed.

Lemma scan_participants_first_participant ps t :
  scan_participants ps = Some t ->
  exists before identity participant after,
    ps = before ++ (identity, participant) :: after /\
    scan_publications (track_publications participant) = Some t /\
    forall i p,
      In (i, p) before -> scan_publications (track_publications p) = None.
Proof.
  induction ps as [ | [identity p] rest IH]; simpl; [discriminate | ].
  destruct (scan_publications (track_publications p)) as [t0 | ] eqn:Epubs.
  - intros H. injection H as <-.
    exists [], identity, p, rest. repeat split; try assumption.
    intros i q [].
  - intros H.
    destruct (IH H) as (before & i & q & after & -> & Hscan & Hno).
    exists ((identity, p) :: before), i, q, after.
    repeat split; try assumption.
    intros i0 p0 [Heq | Hin].
    + injection Heq as <- <-. exact Epubs.
    + exact (Hno i0 p0 Hin).
Qed.

(** X1: the track found by the scan of [get_video_track] is the first one in
    iteration order: no participant listed before its owner publishes a
    remote video track, and no publication listed before it with that owner
    carries one. *)
Theorem scan_returns_first_video_track (r : Room) (t : Track)
    (H : scan_participants (remote_participants r) = Some t) :
  exists before identity participant after
         pubs_before key publication pubs_after,
    remote_participants r = before ++ (identity, participant) :: after /\
    track_publications participant =
      pubs_before ++ (key, publication) :: pubs_after /\
    track publication = Some t /\
    track_class t = RemoteVideoTrack /\
    (forall i p, In (i, p) before ->
                 no_video_publication (track_publications p)) /\
    no_video_publication pubs_before.
Proof.
  destruct (scan_participants_first_participant _ _ H)
    as (before & identity & p & after & Hps & Hscan & Hbefore).
  destruct (scan_publications_first _ _ Hscan)
    as (pubs_before & key & pub & pubs_after & Hpubs & Htrack & Hclass & Hno).
  exists before, identity, p, after, pubs_before, key, pub, pubs_after.
  repeat split; try assumption.
  intros i q Hin k0 p0 t0 Hin0 Ht0.
  exact (scan_publications_missed _ (Hbefore i q Hin) k0 p0 t0 Hin0 Ht0).
Qed.

End SearchOrder.

Section SearchOutcomes.

Lemma get_video_track_from_bounded attempts :
  forall st res st',
    get_video_track_from attempts st = (res, st') ->
    exists k,
      k <= attempts /\
      oracle st' = skipn k (oracle st) /\
      function_ctx st' = function_ctx st /\
      trace st' =
        trace st ++ repeat (EvSleep 1) k ++
          match res with
          | Ret (Some t) => [using_video_track t]
          | _ => []
          end.
Proof.
  induction attempts as [ | attempts IH]; intros st res st';
    cbn [get_video_track_from].
  - intros H. injection H as <- <-.
    exists 0. simpl. rewrite app_nil_r. repeat split. lia.
  - unfold bind at 1, gets at 1.
    destruct (scan_participants (remote_participants (room st))) as [t | ].
    + intros H. injection H as <- <-. exists 0. simpl. repeat split. lia.
    + unfold bind at 1.
      destruct (oracle st) as [ | [r v | r e] ws] eqn:Hor.
      * rewrite (sleep_pending _ _ Hor). intros H. injection H as <- <-.
        exists 1. simpl. rewrite Hor. repeat split. lia.
      * rewrite (sleep_resume _ _ _ _ _ Hor). intros H.
        destruct (IH _ _ _ H) as (k & Hle & Horacle & Hctx & Htrace).
        exists (S k). simpl in Horacle, Hctx, Htrace.
        repeat split; try assumption; [lia | ].
        rewrite Htrace, <- app_assoc. reflexivity.
      * rewrite (sleep_throw _ _ _ _ _ Hor). intros H. injection H as <- <-.
        exists 1. simpl. repeat split. lia.
Qed.

(** X2: whatever happens while it waits, [get_video_track] starts at most 30
    sleeps, each of one second, consumes a wake-up for none but these,
    prints only the line that announces the track it returns, and leaves the
    tool context alone. *)
Theorem get_video_track_bounded (st : St) :
  exists k,
    k <= 30 /\
    oracle (snd (get_video_track st)) = skipn k (oracle st) /\
    function_ctx (snd (get_video_track st)) = function_ctx st /\
    trace (snd (get_video_track st)) =
      trace st ++ repeat (EvSleep 1) k ++
        match fst (get_video_track st) with
        | Ret (Some t) => [using_video_track t]
        | _ => []
        end.
Proof.
  destruct (get_video_track st) as [res st'] eqn:E.
  exact (get_video_track_from_bounded 30 st res st' E).
Qed.

Lemma resumed_cons k st r v ws ev :
  oracle st = Resume r v :: ws ->
  resumed k (set_room r (set_oracle ws (add_event ev st))) ->
  resumed (S k) st.
Proof.
  unfold resumed. intros Hor [Hlen Hall]. rewrite Hor. simpl in *.
  split; [lia | assumption].
Qed.

Lemma get_video_track_from_none attempts :
  forall st st',
    get_video_track_from attempts st = (Ret None, st') ->
    resumed attempts st /\
    Forall no_video_track (firstn attempts (snapshots st)) /\
    oracle st' = skipn attempts (oracle st) /\
    trace st' = trace st ++ repeat (EvSleep 1) attempts.
Proof.
  induction attempts as [ | attempts IH]; intros st st';
    cbn [get_video_track_from].
  - intros H. injection H as <-. simpl. rewrite app_nil_r.
    repeat split; [simpl; lia | constructor].
  - unfold bind at 1, gets at 1.
    destruct (scan_participants (remote_participants (room st))) as [t | ]
      eqn:Escan; [discriminate | ].
    unfold bind at 1.
    destruct (oracle st) as [ | [r v | r e] ws] eqn:Hor.
    + rewrite (sleep_pending _ _ Hor). discriminate.
    + rewrite (sleep_resume _ _ _ _ _ Hor). intros H.
      destruct (IH _ _ H) as (Hres & Hno & Horacle & Htrace).
      simpl in Horacle, Htrace.
      split; [exact (resumed_cons _ _ _ _ _ _ Hor Hres) | ].
      split.
      * unfold snapshots. rewrite Hor. simpl. constructor.
        -- apply scan_participants_missed, Escan.
        -- exact Hno.
      * split; [exact Horacle | ].
        rewrite Htrace, <- app_assoc. reflexivity.
    + rewrite (sleep_throw _ _ _ _ _ Hor). discriminate.
Qed.

(** X3: [get_video_track] returns [None] only when the budget is spent: all
    30 scans found no remote video track and all 30 sleeps of one second
    ran to their end. *)
Theorem get_video_track_none_only_after_budget (st st' : St)
    (H : get_video_track st = (Ret None, st')) :
  resumed 30 st /\
  Forall no_video_track (firstn 30 (snapshots st)) /\
  oracle st' = skipn 30 (oracle st) /\
  trace st' = trace st ++ repeat (EvSleep 1) 30.
Proof. exact (get_video_track_from_none 30 st st' H). Qed.

Lemma get_video_track_from_some attempts :
  forall st st' t,
    get_video_track_from attempts st = (Ret (Some t), st') ->
    exists k,
      k < attempts /\
      resumed k st /\
      Forall no_video_track (firstn k (snapshots st)) /\
      nth_error (snapshots st) k = Some (room st') /\
      scan_participants (remote_participants (room st')) = Some t /\
      oracle st' = skipn k (oracle st) /\
      trace st' = trace st ++ repeat (EvSleep 1) k ++ [using_video_track t].
Proof.
  induction attempts as [ | attempts IH]; intros st st' t;
    cbn [get_video_track_from]; [discriminate | ].
  unfold bind at 1, gets at 1.
  destruct (scan_participants (remote_participants (room st))) as [t0 | ]
    eqn:Escan.
  - intros H. injection H as <- <-. exists 0. simpl.
    repeat split; try assumption; [lia | simpl; lia | constructor].
  - unfold bind at 1.
    destruct (oracle st) as [ | [r v | r e] ws] eqn:Hor.
    + rewrite (sleep_pending _ _ Hor). discriminate.
    + rewrite (sleep_resume _ _ _ _ _ Hor). intros H.
      destruct (IH _ _ _ H)
        as (k & Hlt & Hres & Hno & Hnth & Hscan & Horacle & Htrace).
      simpl in Horacle, Htrace. exists (S k).
      split; [lia | ].
      split; [exact (resumed_cons _ _ _ _ _ _ Hor Hres) | ].
      unfold snapshots in *. rewrite Hor. simpl in *.
      split; [constructor;
              [apply scan_participants_missed, Escan | exact Hno] | ].
      split; [exact Hnth | ]. split; [exact Hscan | ].
      split; [exact Horacle | ].
      rewrite Htrace, <- app_assoc. reflexivity.
    + rewrite (sleep_throw _ _ _ _ _ Hor). discriminate.
Qed.

(** X4: a track returned by [get_video_track] was found at the earliest scan
    that saw a remote video track at all: after [k < 30] sleeps that ran to
    their end, in rooms where none was published, and it is what a scan of
    the room finds when the function returns. *)
Theorem get_video_track_returns_at_earliest_scan (st st' : St) (t : Track)
    (H : get_video_track st = (Ret (Some t), st')) :
  exists k,
    k < 30 /\
    resumed k st /\
    Forall no_video_track (firstn k (snapshots st)) /\
    nth_error (snapshots st) k = Some (room st') /\
    scan_participants (remote_participants (room st')) = Some t /\
    oracle st' = skipn k (oracle st) /\
    trace st' = trace st ++ repeat (EvSleep 1) k ++ [using_video_track t].
Proof. exact (get_video_track_from_some 30 st st' t H). Qed.

End SearchOutcomes.

(** ** process_video: rounds of the loop *)

Section AsyncForRuns.

Variable body : VideoFrame -> M unit.
Hypothesis body_well_behaved : forall frame, well_behaved (body frame).

Lemma async_for_fuel_enough fuel1 :
  forall fuel2 st,
    List.length (oracle st) < fuel1 ->
    List.length (oracle st) < fuel2 ->
    async_for_fuel fuel1 body st = async_for_fuel fuel2 body st.
Proof.
  induction fuel1 as [ | fuel1 IH]; intros fuel2 st H1 H2; [lia | ].
  destruct fuel2 as [ | fuel2]; [lia | ].
  cbn [async_for_fuel].
  destruct (await EvNextFrame st) as [[[frame | ] | e | | ] st1] eqn:Ea;
    try reflexivity.
  apply productive_await in Ea.
  pose proof (run_ok_shorter _ _ (body_well_behaved frame st1)) as Hle.
  destruct (body frame st1) as [[[] | e | | ] st2]; try reflexivity.
  simpl in Hle. apply IH; lia.
Qed.

(** The loop, with its first event taken. *)
Lemma async_for_frame st r frame ws :
  oracle st = Resume r (Some frame) :: ws ->
  async_for body st =
    (body frame ;; async_for body)
      (set_room r (set_oracle ws (add_event EvNextFrame st))).
Proof.
  intros Hor. unfold async_for at 1. cbn [async_for_fuel].
  rewrite (await_resume _ _ _ _ _ Hor). unfold bind.
  pose proof (run_ok_shorter _ _
                (body_well_behaved frame
                   (set_room r (set_oracle ws (add_event EvNextFrame st)))))
    as Hle.
  destruct (body frame _) as [[[] | e | | ] st2]; try reflexivity.
  unfold async_for. simpl in Hle. rewrite Hor.
  apply async_for_fuel_enough; simpl; lia.
Qed.

Lemma async_for_end st r ws :
  oracle st = Resume r None :: ws ->
  async_for body st =
    (Ret tt, set_room r (set_oracle ws (add_event EvNextFrame st))).
Proof.
  intros Hor. unfold async_for. cbn [async_for_fuel].
  rewrite (await_resume _ _ _ _ _ Hor). reflexivity.
Qed.

Lemma async_for_pending st :
  oracle st = [] ->
  async_for body st = (Pending, add_event EvNextFrame st).
Proof.
  intros Hor. unfold async_for. cbn [async_for_fuel].
  rewrite (await_pending _ _ Hor). reflexivity.
Qed.

Lemma async_for_throw st r e ws :
  oracle st = Throw r e :: ws ->
  async_for body st =
    (Raise e, set_room r (set_oracle ws (add_event EvNextFrame st))).
Proof.
  intros Hor. unfold async_for. cbn [async_for_fuel].
  rewrite (await_throw _ _ _ _ _ Hor). reflexivity.
Qed.

End AsyncForRuns.

Section Rounds.

Lemma last_cons {A : Type} (x d : A) (l : list A) :
  last (x :: l) d = last l x.
Proof.
  revert x d. induction l as [ | y l IH]; intros x d; [reflexivity | ].
  change (last (x :: y :: l) d) with (last (y :: l) d).
  rewrite (IH y d), (IH y x). reflexivity.
Qed.

(** The frames of a stream reach the cache one after the other; the loop
    does not look at the room while it consumes them. *)
Lemma async_for_deliveries ds :
  forall st rest,
    oracle st = deliveries ds ++ rest ->
    async_for update_image st =
      async_for update_image
        (mkSt (room_after (deliveries ds) (room st))
              (cache_after ds (function_ctx st))
              rest
              (trace st ++ repeat EvNextFrame (List.length ds))).
Proof.
  induction ds as [ | [r frame] ds IH]; intros st rest Hor.
  - simpl in Hor. unfold room_after, cache_after. simpl.
    rewrite app_nil_r, <- Hor. destruct st as [r0 [tl li] o tr]. reflexivity.
  - simpl in Hor.
    rewrite (async_for_frame _ well_behaved_update_image _ _ _ _ Hor).
    unfold bind at 1, update_image at 1, modify.
    rewrite (IH _ rest) by reflexivity.
    f_equal. unfold room_after, cache_after. simpl map.
    rewrite !last_cons. simpl. rewrite <- app_assoc. reflexivity.
Qed.

Lemma process_video_try_found st t :
  scan_participants (remote_participants (room st)) = Some t ->
  process_video_try st =
    async_for update_image
      (add_event (EvVideoStream t)
         (add_event (EvPrint "Starting video stream processing...")
            (add_event (using_video_track t) st))).
Proof.
  intros Hscan.
  unfold process_video_try, get_video_track. cbn [get_video_track_from].
  cbv beta iota delta [bind gets print emit modify ret]. rewrite Hscan.
  reflexivity.
Qed.

(** A round that ends normally leads back to the top of the loop. *)
Lemma process_video_next st st1 :
  connected st = true ->
  process_video_iteration st = (Ret tt, st1) ->
  process_video st = process_video st1.
Proof.
  intros Hconn Hiter. rewrite process_video_unfold. unfold try_except at 1.
  rewrite Hconn. unfold bind. rewrite Hiter. reflexivity.
Qed.

Lemma process_video_iteration_ret st st1 :
  process_video_try st = (Ret tt, st1) ->
  process_video_iteration st = (Ret tt, st1).
Proof.
  intros H. unfold process_video_iteration, try_except. rewrite H.
  reflexivity.
Qed.

Lemma repeat_snoc {A : Type} (x : A) n : repeat x n ++ [x] = x :: repeat x n.
Proof. induction n as [ | n IH]; simpl; [ | rewrite IH]; reflexivity. Qed.

End Rounds.

Section ProcessVideoRounds.

Lemma process_video_disconnected st :
  connected st = false -> process_video st = (Ret tt, st).
Proof.
  intros H. rewrite process_video_unfold. unfold try_except. rewrite H.
  reflexivity.
Qed.

Lemma process_video_streams st t ds rest :
  scan_participants (remote_participants (room st)) = Some t ->
  oracle st = deliveries ds ++ rest ->
  process_video_try st =
    async_for update_image
      (mkSt (room_after (deliveries ds) (room st))
            (cache_after ds (function_ctx st))
            rest
            (trace st ++ [ using_video_track t;
                           EvPrint "Starting video stream processing...";
                           EvVideoStream t ]
                      ++ repeat EvNextFrame (List.length ds))).
Proof.
  intros Hscan Hor. rewrite (process_video_try_found _ _ Hscan).
  rewrite (async_for_deliveries ds _ rest) by exact Hor.
  simpl. rewrite <- !app_assoc. reflexivity.
Qed.

(** X5: while it consumes a stream, [process_video] does not look at the
    connection state: every frame delivered is cached, also those that
    arrive after the room stopped being connected, and with the stream
    still open the task is waiting for the next frame. *)
Theorem process_video_caches_stream_frames (st : St) (t : Track)
    (ds : list (Room * VideoFrame))
    (Hconnected : connected st = true)
    (Hscan : scan_participants (remote_participants (room st)) = Some t)
    (Hscript : oracle st = deliveries ds) :
  process_video st =
    (Pending,
     mkSt (room_after (deliveries ds) (room st))
          (cache_after ds (function_ctx st))
          []
          (trace st ++ stream_opening t
                    ++ repeat EvNextFrame (List.length ds))).
Proof.
  rewrite process_video_unfold. unfold try_except at 1.
  rewrite Hconnected. unfold bind at 1.
  unfold process_video_iteration, try_except.
  assert (Hor : oracle st = deliveries ds ++ [])
    by (rewrite app_nil_r; exact Hscript).
  rewrite (process_video_streams st t ds [] Hscan Hor).
  rewrite async_for_pending by reflexivity.
  unfold add_event, stream_opening. simpl. do 2 f_equal.
  rewrite <- !app_assoc. simpl. rewrite repeat_snoc. reflexivity.
Qed.

(** X6: when the stream ends, the round ends without a sleep and without a
    log line, the frames delivered stay cached, and [process_video] goes on
    from the top of its loop; it returns there if the room is no longer
    connected. *)
Theorem process_video_after_stream_end (st : St) (t : Track)
    (ds : list (Room * VideoFrame)) (r : Room) (ws : list Wake)
    (Hconnected : connected st = true)
    (Hscan : scan_participants (remote_participants (room st)) = Some t)
    (Hscript : oracle st = deliveries ds ++ Resume r None :: ws) :
  let st_end :=
    mkSt r (cache_after ds (function_ctx st)) ws
         (trace st ++ stream_opening t
                   ++ repeat EvNextFrame (List.length ds)) in
  process_video st = process_video st_end /\
  (is_connected r = false -> process_video st = (Ret tt, st_end)).
Proof.
  intros st_end.
  assert (Hnext : process_video st = process_video st_end).
  { apply process_video_next; [exact Hconnected | ].
    apply process_video_iteration_ret.
    rewrite (process_video_streams st t ds _ Hscan Hscript).
    erewrite async_for_end by reflexivity.
    unfold st_end, set_room, set_oracle, add_event, stream_opening. simpl.
    do 2 f_equal.
    rewrite <- !app_assoc. simpl. rewrite repeat_snoc. reflexivity. }
  split; [exact Hnext | ].
  intros Hdisc. rewrite Hnext. apply process_video_disconnected. exact Hdisc.
Qed.

Lemma nth_error_skipn {A : Type} (l : list A) :
  forall k x, nth_error l k = Some x -> skipn k l = x :: skipn (S k) l.
Proof.
  induction l as [ | y l IH]; intros [ | k] x; simpl; try discriminate.
  - intros H. injection H as <-. reflexivity.
  - intros H. rewrite (IH k x H). reflexivity.
Qed.

Lemma resumed_last k st :
  resumed (S k) st ->
  resumed k st /\ exists r v, nth_error (oracle st) k = Some (Resume r v).
Proof.
  unfold resumed. generalize (oracle st) as ws.
  induction k as [ | k IH]; intros ws [Hlen Hall].
  - destruct ws as [ | [r v | r e] ws]; simpl in *; try lia; try discriminate.
    split; [split; [lia | reflexivity] | exists r, v; reflexivity].
  - destruct ws as [ | [r v | r e] ws]; try (simpl in *; lia);
      try (simpl in Hall; discriminate).
    change (firstn (S (S k)) (Resume r v :: ws))
      with (Resume r v :: firstn (S k) ws) in Hall.
    simpl in Hlen. cbn [forallb is_resume andb] in Hall.
    assert (Hlen0 : S k <= List.length ws) by lia.
    destruct (IH ws (conj Hlen0 Hall)) as [[Hlen' Hall'] Hnth].
    split; [ | exact Hnth].
    split; [simpl; lia | ].
    change (firstn (S k) (Resume r v :: ws))
      with (Resume r v :: firstn k ws).
    cbn [forallb is_resume andb]. exact Hall'.
Qed.

Lemma while_fuel_exit cond body fuel :
  forall st st',
    while_fuel fuel cond body st = (Ret tt, st') -> cond st' = false.
Proof.
  induction fuel as [ | fuel IH]; intros st st'; cbn [while_fuel];
    [discriminate | ].
  destruct (cond st) eqn:Ec.
  - destruct (body st) as [[[] | e | | ] st1]; try discriminate.
    apply IH.
  - intros H. injection H as <-. exact Ec.
Qed.

(** X8: [process_video] returns only when it has seen that the room is not
    connected, or right after it logged an [Exception] as "Video processing
    task error". *)
Theorem process_video_returns_only_when_done (st st' : St)
    (H : process_video st = (Ret tt, st')) :
  connected st' = false \/
  exists e st1,
    isinstance_Exception e = true /\
    st' = add_event (video_processing_task_error e) st1.
Proof.
  unfold process_video, try_except in H.
  destruct (while_ connected process_video_iteration st)
    as [[[] | e | | ] st1] eqn:Ew; try discriminate.
  - injection H as <-. left.
    exact (while_fuel_exit _ _ _ _ _ Ew).
  - destruct (isinstance_Exception e) eqn:Ee; [ | discriminate].
    right. exists e, st1. split; [exact Ee | ].
    unfold print, emit, modify in H. injection H as <-. reflexivity.
Qed.

(** X9: an [Exception] that escapes the handler of the inner [try], thrown
    into its sleep, ends the task for good: it is logged as "Video
    processing task error" and [process_video] returns, although the room
    is still connected. *)
Theorem process_video_stops_on_handler_error (st st1 : St) (e : PyExc)
    (r : Room) (msg : string) (ws : list Wake)
    (Hconnected : connected st = true)
    (Hraised : process_video_try st = (Raise e, st1))
    (Hexception : isinstance_Exception e = true)
    (Hwake : oracle st1 = Throw r (Exception msg) :: ws) :
  process_video st =
    (Ret tt,
     add_event (video_processing_task_error (Exception msg))
       (set_room r
          (set_oracle ws
             (add_event (EvSleep 1)
                (add_event (video_processing_error e) st1))))).
Proof.
  rewrite process_video_unfold. unfold try_except at 1.
  rewrite Hconnected. unfold bind at 1.
  unfold process_video_iteration at 1, try_except at 1.
  rewrite Hraised, Hexception.
  unfold process_video_except, bind at 1, print, emit, modify.
  rewrite (sleep_throw 1 (add_event _ st1) r _ ws Hwake).
  reflexivity.
Qed.

End ProcessVideoRounds.

(** ** process_video: what it keeps of the tool context *)

Section CacheInvariant.

Variable P : AssistantFunction -> Prop.
Hypothesis P_update :
  forall c image,
    P c -> P {| tools := tools c; latest_image := Some image |}.

Lemma ctx_invariant_ret {A : Type} (a : A) : ctx_invariant P (ret a).
Proof. intros st H. exact H. Qed.

Lemma ctx_invariant_gets {A : Type} (f : St -> A) : ctx_invariant P (gets f).
Proof. intros st H. exact H. Qed.

Lemma ctx_invariant_emit ev : ctx_invariant P (emit ev).
Proof. intros st H. exact H. Qed.

Lemma ctx_invariant_update_image image : ctx_invariant P (update_image image).
Proof. intros st H. simpl. apply P_update, H. Qed.

Lemma ctx_invariant_await ev : ctx_invariant P (await ev).
Proof.
  intros st H. unfold await. simpl.
  destruct (oracle st) as [ | [r v | r e] ws]; exact H.
Qed.

Lemma ctx_invariant_bind {A B : Type} (m : M A) (k : A -> M B) :
  ctx_invariant P m -> (forall a, ctx_invariant P (k a)) ->
  ctx_invariant P (bind m k).
Proof.
  intros Hm Hk st H. unfold bind. specialize (Hm st H).
  destruct (m st) as [[a | e | | ] st1]; simpl in *; try exact Hm.
  apply Hk, Hm.
Qed.

Lemma ctx_invariant_sleep n : ctx_invariant P (sleep n).
Proof.
  apply ctx_invariant_bind; [apply ctx_invariant_await | ].
  intros _. apply ctx_invariant_ret.
Qed.

Lemma ctx_invariant_try_except {A : Type} (m : M A) catches h :
  ctx_invariant P m -> (forall e, ctx_invariant P (h e)) ->
  ctx_invariant P (try_except m catches h).
Proof.
  intros Hm Hh st H. unfold try_except. specialize (Hm st H).
  destruct (m st) as [[a | e | | ] st1]; simpl in *; try exact Hm.
  destruct (catches e); [apply Hh, Hm | exact Hm].
Qed.

Lemma ctx_invariant_while cond body :
  ctx_invariant P body -> ctx_invariant P (while_ cond body).
Proof.
  intros Hb st. unfold while_.
  generalize (S (List.length (oracle st))) as fuel. intros fuel. revert st.
  induction fuel as [ | fuel IH]; intros st H; cbn [while_fuel];
    [exact H | ].
  destruct (cond st); [ | exact H].
  specialize (Hb st H).
  destruct (body st) as [[[] | e | | ] st1]; simpl in *; try exact Hb.
  apply IH, Hb.
Qed.

Lemma ctx_invariant_async_for body :
  (forall frame, ctx_invariant P (body frame)) ->
  ctx_invariant P (async_for body).
Proof.
  intros Hb st. unfold async_for.
  generalize (S (List.length (oracle st))) as fuel. intros fuel. revert st.
  induction fuel as [ | fuel IH]; intros st H; cbn [async_for_fuel];
    [exact H | ].
  pose proof (ctx_invariant_await EvNextFrame st H) as Ha.
  destruct (await EvNextFrame st) as [[[frame | ] | e | | ] st1];
    simpl in *; try exact Ha.
  specialize (Hb frame st1 Ha).
  destruct (body frame st1) as [[[] | e | | ] st2]; simpl in *; try exact Hb.
  apply IH, Hb.
Qed.

Lemma ctx_invariant_get_video_track_from attempts :
  ctx_invariant P (get_video_track_from attempts).
Proof.
  induction attempts as [ | attempts IH]; cbn [get_video_track_from].
  - apply ctx_invariant_ret.
  - apply ctx_invariant_bind; [apply ctx_invariant_gets | ].
    intros r. destruct (scan_participants (remote_participants r)).
    + apply ctx_invariant_bind; [apply ctx_invariant_emit | ].
      intros _. apply ctx_invariant_ret.
    + apply ctx_invariant_bind; [apply ctx_invariant_sleep | ].
      intros _. exact IH.
Qed.

Lemma ctx_invariant_process_video : ctx_invariant P process_video.
Proof.
  apply ctx_invariant_try_except; [ | intros e; apply ctx_invariant_emit].
  apply ctx_invariant_while, ctx_invariant_try_except.
  - apply ctx_invariant_bind; [apply ctx_invariant_get_video_track_from | ].
    intros [t | ].
    + apply ctx_invariant_bind; [apply ctx_invariant_emit | ].
      intros _. apply ctx_invariant_bind; [apply ctx_invariant_emit | ].
      intros _. apply ctx_invariant_async_for.
      intros frame. apply ctx_invariant_update_image.
    + apply ctx_invariant_bind; [apply ctx_invariant_emit | ].
      intros _. apply ctx_invariant_sleep.
  - intros e. apply ctx_invariant_bind; [apply ctx_invariant_emit | ].
    intros _. apply ctx_invariant_sleep.
Qed.

End CacheInvariant.

(** X10: no run of [process_video] clears the cache or touches the tools:
    once a frame is cached one stays cached, also when the stream ends, an
    error occurs or the track is gone, so that [analyze_image] keeps
    answering that it sees the video feed. *)
Theorem process_video_never_clears_cache (st : St) (user_msg : string)
    (H : latest_image (function_ctx st) <> None) :
  latest_image (function_ctx (snd (process_video st))) <> None /\
  tools (function_ctx (snd (process_video st))) = tools (function_ctx st) /\
  fst (analyze_image user_msg (snd (process_video st))) =
    Ret "I can see the current video feed. Let me analyze what's visible.".
Proof.
  assert (Hkept : latest_image (function_ctx (snd (process_video st)))
                  <> None).
  { apply (ctx_invariant_process_video (fun c => latest_image c <> None));
      [intros c image _; discriminate | exact H]. }
  split; [exact Hkept | ].
  split.
  - apply (ctx_invariant_process_video
             (fun c => tools c = tools (function_ctx st)));
      [intros c image Hc; exact Hc | reflexivity].
  - rewrite analyze_image_run. simpl.
    destruct (latest_image (function_ctx (snd (process_video st))));
      [reflexivity | destruct Hkept; reflexivity].
Qed.

(** ** process_video: cancellation *)

Section Cancellation.

Lemma script_stable_ret {A : Type} (a : A) : script_stable (ret a).
Proof. intros st res st' ext H _ _. injection H as <- <-. reflexivity. Qed.

Lemma cancel_here_ret {A : Type} (a : A) : cancel_here (ret a).
Proof. intros st st' H. discriminate. Qed.

Lemma script_stable_gets {A : Type} (f : St -> A) :
  (forall ext st, f (with_more ext st) = f st) -> script_stable (gets f).
Proof.
  intros Hf st res st' ext H _ _. injection H as <- <-.
  unfold gets. rewrite Hf. reflexivity.
Qed.

Lemma cancel_here_gets {A : Type} (f : St -> A) : cancel_here (gets f).
Proof. intros st st' H. discriminate. Qed.

Lemma script_stable_modify (f : St -> St) :
  (forall ext st, f (with_more ext st) = with_more ext (f st)) ->
  script_stable (modify f).
Proof.
  intros Hf st res st' ext H _ _. injection H as <- <-.
  unfold modify. rewrite Hf. reflexivity.
Qed.

Lemma cancel_here_modify (f : St -> St) : cancel_here (modify f).
Proof. intros st st' H. discriminate. Qed.

Lemma script_stable_emit ev : script_stable (emit ev).
Proof. apply script_stable_modify. reflexivity. Qed.

Lemma script_stable_update_image image : script_stable (update_image image).
Proof. apply script_stable_modify. reflexivity. Qed.

Lemma script_stable_await ev : script_stable (await ev).
Proof.
  intros st res st' ext H Hp _. unfold await in *. simpl in *.
  destruct (oracle st) as [ | [r v | r e] ws]; simpl.
  - injection H as <- _. destruct Hp. reflexivity.
  - injection H as <- <-. reflexivity.
  - injection H as <- <-. reflexivity.
Qed.

Lemma cancel_here_await ev : cancel_here (await ev).
Proof.
  intros st st' H r rest. unfold await in *. simpl in *.
  destruct (oracle st) as [ | [r0 v | r0 e] ws]; try discriminate.
  injection H as <-. reflexivity.
Qed.

Lemma script_stable_bind {A B : Type} (m : M A) (k : A -> M B) :
  script_stable m -> (forall a, script_stable (k a)) ->
  script_stable (bind m k).
Proof.
  intros Hm Hk st res st' ext H Hp Hf. unfold bind in *.
  destruct (m st) as [[a | e | | ] st1] eqn:Em.
  - rewrite (Hm _ _ _ ext Em) by discriminate. exact (Hk a _ _ _ ext H Hp Hf).
  - rewrite (Hm _ _ _ ext Em) by discriminate.
    injection H as <- <-. reflexivity.
  - injection H as <- _. destruct Hp. reflexivity.
  - injection H as <- _. destruct Hf. reflexivity.
Qed.

Lemma cancel_here_bind {A B : Type} (m : M A) (k : A -> M B) :
  script_stable m -> cancel_here m -> (forall a, cancel_here (k a)) ->
  cancel_here (bind m k).
Proof.
  intros Hs Hm Hk st st' H r rest. unfold bind in *.
  destruct (m st) as [[a | e | | ] st1] eqn:Em; try discriminate.
  - rewrite (Hs _ _ _ _ Em) by discriminate. exact (Hk a _ _ H r rest).
  - injection H as <-. rewrite (Hm _ _ Em r rest). reflexivity.
Qed.

Lemma script_stable_sleep n : script_stable (sleep n).
Proof.
  apply script_stable_bind; [apply script_stable_await | ].
  intros _. apply script_stable_ret.
Qed.

Lemma cancel_here_sleep n : cancel_here (sleep n).
Proof.
  apply cancel_here_bind;
    [apply script_stable_await | apply cancel_here_await | ].
  intros _. apply cancel_here_ret.
Qed.

Lemma script_stable_try_except {A : Type} (m : M A) catches h :
  script_stable m -> (forall e, script_stable (h e)) ->
  script_stable (try_except m catches h).
Proof.
  intros Hm Hh st res st' ext H Hp Hf. unfold try_except in *.
  destruct (m st) as [[a | e | | ] st1] eqn:Em.
  - rewrite (Hm _ _ _ ext Em) by discriminate.
    injection H as <- <-. reflexivity.
  - rewrite (Hm _ _ _ ext Em) by discriminate.
    destruct (catches e).
    + exact (Hh e _ _ _ ext H Hp Hf).
    + injection H as <- <-. reflexivity.
  - injection H as <- _. destruct Hp. reflexivity.
  - injection H as <- _. destruct Hf. reflexivity.
Qed.

(** A handler for [Exception] lets the cancellation through. *)
Lemma cancel_here_try_except {A : Type} (m : M A) h :
  script_stable m -> cancel_here m -> (forall e, cancel_here (h e)) ->
  cancel_here (try_except m isinstance_Exception h).
Proof.
  intros Hs Hm Hh st st' H r rest. unfold try_except in *.
  destruct (m st) as [[a | e | | ] st1] eqn:Em; try discriminate.
  - rewrite (Hs _ _ _ _ Em) by discriminate.
    destruct (isinstance_Exception e); [ | discriminate].
    exact (Hh e _ _ H r rest).
  - injection H as <-. rewrite (Hm _ _ Em r rest). reflexivity.
Qed.

Section While.

Variable cond : St -> bool.
Variable body : M unit.
Hypothesis cond_stable : forall ext st, cond (with_more ext st) = cond st.
Hypothesis body_well_behaved : well_behaved body.
Hypothesis body_productive : productive body.
Hypothesis body_stable : script_stable body.
Hypothesis body_cancel : cancel_here body.

Lemma while_fuel_extends fuel :
  forall st res st',
    List.length (oracle st) < fuel ->
    while_fuel fuel cond body st = (res, st') ->
    (res <> Pending ->
     forall ext fuel',
       List.length (oracle st) + List.length ext < fuel' ->
       while_fuel fuel' cond body (with_more ext st) =
         (res, with_more ext st')) /\
    (res = Pending ->
     forall r rest fuel',
       List.length (oracle st) + S (List.length rest) < fuel' ->
       while_fuel fuel' cond body
         (with_more (Throw r CancelledError :: rest) st) =
         (Raise CancelledError, set_room r (set_oracle rest st'))).
Proof.
  induction fuel as [ | fuel IH]; intros st res st' Hlen; [lia | ].
  cbn [while_fuel]. destruct (cond st) eqn:Ec.
  - pose proof (body_well_behaved st) as Hwb.
    destruct (body st) as [[[] | e | | ] st1] eqn:Eb.
    + intros H. pose proof (body_productive _ _ _ Eb) as Hlt.
      destruct (IH st1 res st' ltac:(lia) H) as [Hend Hpend].
      split.
      * intros Hp ext [ | fuel'] Hfuel; [lia | ].
        cbn [while_fuel]. rewrite cond_stable, Ec.
        rewrite (body_stable _ _ _ ext Eb) by discriminate.
        apply Hend; [exact Hp | lia].
      * intros Hp r rest [ | fuel'] Hfuel; [lia | ].
        cbn [while_fuel]. rewrite cond_stable, Ec.
        rewrite (body_stable _ _ _ _ Eb) by discriminate.
        apply Hpend; [exact Hp | lia].
    + intros H. injection H as <- <-. split; [ | discriminate].
      intros _ ext [ | fuel'] Hfuel; [lia | ].
      cbn [while_fuel]. rewrite cond_stable, Ec.
      rewrite (body_stable _ _ _ ext Eb) by discriminate. reflexivity.
    + intros H. injection H as <- <-.
      split; [intros Hp; destruct Hp; reflexivity | ].
      intros _ r rest [ | fuel'] Hfuel; [lia | ].
      cbn [while_fuel]. rewrite cond_stable, Ec.
      rewrite (body_cancel _ _ Eb r rest). reflexivity.
    + destruct Hwb as (_ & _ & _ & Hf & _). destruct Hf. reflexivity.
  - intros H. injection H as <- <-. split; [ | discriminate].
    intros _ ext [ | fuel'] Hfuel; [lia | ].
    cbn [while_fuel]. rewrite cond_stable, Ec. reflexivity.
Qed.

Lemma script_stable_while : script_stable (while_ cond body).
Proof.
  intros st res st' ext H Hp _. unfold while_ in *.
  apply (while_fuel_extends _ st res st' (Nat.lt_succ_diag_r _) H); [exact Hp | ].
  simpl. rewrite length_app. lia.
Qed.

Lemma cancel_here_while : cancel_here (while_ cond body).
Proof.
  intros st st' H r rest. unfold while_ in *.
  apply (while_fuel_extends _ st Pending st' (Nat.lt_succ_diag_r _) H);
    [reflexivity | ].
  simpl. rewrite length_app. simpl. lia.
Qed.

End While.

Section AsyncFor.

Variable body : VideoFrame -> M unit.
Hypothesis body_well_behaved : forall frame, well_behaved (body frame).
Hypothesis body_stable : forall frame, script_stable (body frame).
Hypothesis body_cancel : forall frame, cancel_here (body frame).

Lemma async_for_fuel_extends fuel :
  forall st res st',
    List.length (oracle st) < fuel ->
    async_for_fuel fuel body st = (res, st') ->
    (res <> Pending ->
     forall ext fuel',
       List.length (oracle st) + List.length ext < fuel' ->
       async_for_fuel fuel' body (with_more ext st) =
         (res, with_more ext st')) /\
    (res = Pending ->
     forall r rest fuel',
       List.length (oracle st) + S (List.length rest) < fuel' ->
       async_for_fuel fuel' body
         (with_more (Throw r CancelledError :: rest) st) =
         (Raise CancelledError, set_room r (set_oracle rest st'))).
Proof.
  induction fuel as [ | fuel IH]; intros st res st' Hlen; [lia | ].
  cbn [async_for_fuel].
  pose proof (well_behaved_await EvNextFrame st) as Hwa.
  destruct (await EvNextFrame st) as [[[frame | ] | e | | ] st1] eqn:Ea.
  - pose proof (productive_await _ _ _ _ Ea) as Hlt.
    pose proof (body_well_behaved frame st1) as Hwb.
    pose proof (run_ok_shorter _ _ Hwb) as Hle.
    destruct (body frame st1) as [[[] | e | | ] st2] eqn:Eb; simpl in Hle.
    + intros H.
      destruct (IH st2 res st' ltac:(lia) H) as [Hend Hpend].
      split.
      * intros Hp ext [ | fuel'] Hfuel; [lia | ].
        cbn [async_for_fuel].
        rewrite (script_stable_await _ _ _ _ ext Ea) by discriminate.
        rewrite (body_stable _ _ _ _ ext Eb) by discriminate.
        apply Hend; [exact Hp | lia].
      * intros Hp r rest [ | fuel'] Hfuel; [lia | ].
        cbn [async_for_fuel].
        rewrite (script_stable_await _ _ _ _ _ Ea) by discriminate.
        rewrite (body_stable _ _ _ _ _ Eb) by discriminate.
        apply Hpend; [exact Hp | lia].
    + intros H. injection H as <- <-. split; [ | discriminate].
      intros _ ext [ | fuel'] Hfuel; [lia | ].
      cbn [async_for_fuel].
      rewrite (script_stable_await _ _ _ _ ext Ea) by discriminate.
      rewrite (body_stable _ _ _ _ ext Eb) by discriminate. reflexivity.
    + intros H. injection H as <- <-.
      split; [intros Hp; destruct Hp; reflexivity | ].
      intros _ r rest [ | fuel'] Hfuel; [lia | ].
      cbn [async_for_fuel].
      rewrite (script_stable_await _ _ _ _ _ Ea) by discriminate.
      rewrite (body_cancel _ _ _ Eb r rest). reflexivity.
    + destruct Hwb as (_ & _ & _ & Hf & _). destruct Hf. reflexivity.
  - intros H. injection H as <- <-. split; [ | discriminate].
    intros _ ext [ | fuel'] Hfuel; [lia | ].
    cbn [async_for_fuel].
    rewrite (script_stable_await _ _ _ _ ext Ea) by discriminate.
    reflexivity.
  - intros H. injection H as <- <-. split; [ | discriminate].
    intros _ ext [ | fuel'] Hfuel; [lia | ].
    cbn [async_for_fuel].
    rewrite (script_stable_await _ _ _ _ ext Ea) by discriminate.
    reflexivity.
  - intros H. injection H as <- <-.
    split; [intros Hp; destruct Hp; reflexivity | ].
    intros _ r rest [ | fuel'] Hfuel; [lia | ].
    cbn [async_for_fuel].
    rewrite (cancel_here_await _ _ _ Ea r rest). reflexivity.
  - destruct Hwa as (_ & _ & _ & Hf & _). destruct Hf. reflexivity.
Qed.

Lemma script_stable_async_for : script_stable (async_for body).
Proof.
  intros st res st' ext H Hp _. unfold async_for in *.
  apply (async_for_fuel_extends _ st res st' (Nat.lt_succ_diag_r _) H); [exact Hp | ].
  simpl. rewrite length_app. lia.
Qed.

Lemma cancel_here_async_for : cancel_here (async_for body).
Proof.
  intros st st' H r rest. unfold async_for in *.
  apply (async_for_fuel_extends _ st Pending st' (Nat.lt_succ_diag_r _) H);
    [reflexivity | ].
  simpl. rewrite length_app. simpl. lia.
Qed.

End AsyncFor.

End Cancellation.

Section ProcessVideoCancellation.

Lemma script_stable_get_video_track_from attempts :
  script_stable (get_video_track_from attempts).
Proof.
  induction attempts as [ | attempts IH]; cbn [get_video_track_from].
  - apply script_stable_ret.
  - apply script_stable_bind; [apply script_stable_gets; reflexivity | ].
    intros r. destruct (scan_participants (remote_participants r)).
    + apply script_stable_bind; [apply script_stable_emit | ].
      intros _. apply script_stable_ret.
    + apply script_stable_bind; [apply script_stable_sleep | ].
      intros _. exact IH.
Qed.

Lemma cancel_here_get_video_track_from attempts :
  cancel_here (get_video_track_from attempts).
Proof.
  induction attempts as [ | attempts IH]; cbn [get_video_track_from].
  - apply cancel_here_ret.
  - apply cancel_here_bind;
      [apply script_stable_gets; reflexivity | apply cancel_here_gets | ].
    intros r. destruct (scan_participants (remote_participants r)).
    + apply cancel_here_bind;
        [apply script_stable_emit | apply cancel_here_modify | ].
      intros _. apply cancel_here_ret.
    + apply cancel_here_bind;
        [apply script_stable_sleep | apply cancel_here_sleep | ].
      intros _. exact IH.
Qed.

Lemma script_stable_process_video_iteration :
  script_stable process_video_iteration.
Proof.
  apply script_stable_try_except.
  - apply script_stable_bind; [apply script_stable_get_video_track_from | ].
    intros [t | ].
    + apply script_stable_bind; [apply script_stable_emit | ].
      intros _. apply script_stable_bind; [apply script_stable_emit | ].
      intros _. apply script_stable_async_for.
      * intros frame. apply well_behaved_update_image.
      * intros frame. apply script_stable_update_image.
      * intros frame. apply cancel_here_modify.
    + apply script_stable_bind; [apply script_stable_emit | ].
      intros _. apply script_stable_sleep.
  - intros e. apply script_stable_bind; [apply script_stable_emit | ].
    intros _. apply script_stable_sleep.
Qed.

Lemma cancel_here_process_video_iteration :
  cancel_here process_video_iteration.
Proof.
  apply cancel_here_try_except.
  - apply script_stable_bind; [apply script_stable_get_video_track_from | ].
    intros [t | ].
    + apply script_stable_bind; [apply script_stable_emit | ].
      intros _. apply script_stable_bind; [apply script_stable_emit | ].
      intros _. apply script_stable_async_for.
      * intros frame. apply well_behaved_update_image.
      * intros frame. apply script_stable_update_image.
      * intros frame. apply cancel_here_modify.
    + apply script_stable_bind; [apply script_stable_emit | ].
      intros _. apply script_stable_sleep.
  - apply cancel_here_bind;
      [ apply script_stable_get_video_track_from
      | apply cancel_here_get_video_track_from | ].
    intros [t | ].
    + apply cancel_here_bind;
        [apply script_stable_emit | apply cancel_here_modify | ].
      intros _. apply cancel_here_bind;
        [apply script_stable_emit | apply cancel_here_modify | ].
      intros _. apply cancel_here_async_for.
      * intros frame. apply well_behaved_update_image.
      * intros frame. apply script_stable_update_image.
      * intros frame. apply cancel_here_modify.
    + apply cancel_here_bind;
        [apply script_stable_emit | apply cancel_here_modify | ].
      intros _. apply cancel_here_sleep.
  - intros e. apply cancel_here_bind;
      [apply script_stable_emit | apply cancel_here_modify | ].
    intros _. apply cancel_here_sleep.
Qed.

Lemma cancel_here_process_video : cancel_here process_video.
Proof.
  apply cancel_here_try_except.
  - apply script_stable_while.
    + reflexivity.
    + apply well_behaved_process_video_iteration.
    + apply productive_process_video_iteration.
    + apply script_stable_process_video_iteration.
    + apply cancel_here_process_video_iteration.
  - apply cancel_here_while.
    + reflexivity.
    + apply well_behaved_process_video_iteration.
    + apply productive_process_video_iteration.
    + apply script_stable_process_video_iteration.
    + apply cancel_here_process_video_iteration.
  - intros e. apply cancel_here_modify.
Qed.

(** X11: cancellation takes effect where [process_video] is suspended,
    whichever [await] that is: the task raises [CancelledError] at once,
    with no error logged, no further step taken and the cache as it was;
    awaiting the task then yields the cancellation. *)
Theorem process_video_cancelled_where_suspended (st st' : St)
    (r : Room) (rest : list Wake)
    (H : process_video st = (Pending, st')) :
  process_video (with_more (Throw r CancelledError :: rest) st) =
    (Raise CancelledError, set_room r (set_oracle rest st')) /\
  task_outcome (Started st) r = Raise CancelledError.
Proof.
  split.
  - exact (cancel_here_process_video st st' H r rest).
  - simpl. change (set_oracle (oracle st ++ [Throw r CancelledError]) st)
      with (with_more [Throw r CancelledError] st).
    rewrite (cancel_here_process_video st st' H r []). reflexivity.
Qed.

End ProcessVideoCancellation.

(** ** entrypoint: other ways through the idle loop and the setup *)

Section EntrypointEdges.

Variable task : TaskProgress.

(** X12: both loops compare the connection state with [CONN_CONNECTED], so
    a room that is reconnecting counts as gone, as a disconnected one does:
    [process_video] returns at once and the idle loop of [entrypoint] goes
    straight to the cancellation of the video task. *)
Theorem not_connected_ends_both_loops (st : St)
    (H : connection_state (room st) <> CONN_CONNECTED) :
  process_video st = (Ret tt, st) /\
  run_until_disconnected task st =
    (Ret tt, add_event EvAwaitTask (add_event EvCancelTask st)).
Proof.
  assert (Hconn : connected st = false).
  { unfold connected, is_connected.
    destruct (connection_state (room st)); [ | destruct H | ]; reflexivity. }
  split; [apply process_video_disconnected, Hconn | ].
  unfold run_until_disconnected, try_finally.
  rewrite idle_loop_unfold, Hconn. unfold bind. rewrite shutdown_run.
  reflexivity.
Qed.

Lemma idle_loop_raises k :
  forall st r e,
    resumed k st ->
    Forall (fun r0 => is_connected r0 = true) (firstn (S k) (snapshots st)) ->
    nth_error (oracle st) k = Some (Throw r e) ->
    exists st',
      idle_loop st = (Raise e, st') /\
      oracle st' = skipn (S k) (oracle st) /\
      trace st' = trace st ++ repeat (EvSleep 1) (S k).
Proof.
  induction k as [ | k IH]; intros st r e Hres Hconn Hnth;
    rewrite idle_loop_unfold; unfold connected;
    simpl in Hconn; apply Forall_cons_iff in Hconn;
    destruct Hconn as [Hconn0 Hconn]; rewrite Hconn0; unfold bind.
  - destruct (oracle st) as [ | w ws] eqn:Hor; [discriminate | ].
    simpl in Hnth. injection Hnth as ->.
    rewrite (sleep_throw _ _ _ _ _ Hor).
    eexists. split; [reflexivity | ]. split; reflexivity.
  - destruct (resumed_S _ _ Hres) as (r1 & v & ws & Hor & Hres').
    rewrite (sleep_resume _ _ _ _ _ Hor).
    rewrite Hor in Hconn, Hnth. simpl in Hnth.
    destruct (IH _ r e (Hres' (EvSleep 1)) Hconn Hnth)
      as (st' & Hrun & Horacle & Htrace).
    exists st'. simpl in Horacle, Htrace.
    split; [exact Hrun | ]. split; [rewrite Hor; exact Horacle | ].
    rewrite Htrace, <- app_assoc. reflexivity.
Qed.

(** X13: the [finally] block also runs when the idle loop is left by an
    exception: if a sleep of the loop raises, a [CancelledError] for
    instance, [entrypoint] still cancels the video task and awaits it, and
    then raises the exception again. *)
Theorem entrypoint_cleans_up_on_exception (st : St) (k : nat)
    (r : Room) (e : PyExc)
    (Hresumed : resumed k st)
    (Hconnected :
       Forall (fun r0 => is_connected r0 = true)
              (firstn (S k) (snapshots st)))
    (Hthrown : nth_error (oracle st) k = Some (Throw r e)) :
  exists st',
    run_until_disconnected task st = (Raise e, st') /\
    trace st' =
      trace st ++ repeat (EvSleep 1) (S k) ++ [EvCancelTask; EvAwaitTask].
Proof.
  destruct (idle_loop_raises k st r e Hresumed Hconnected Hthrown)
    as (st1 & Hrun & _ & Htrace).
  unfold run_until_disconnected, try_finally. rewrite Hrun.
  unfold bind. rewrite shutdown_run.
  eexists. split; [reflexivity | ].
  cbn [trace add_event]. rewrite Htrace, <- !app_assoc. reflexivity.
Qed.

Lemma idle_loop_waits ws :
  forall st,
    oracle st = ws ->
    forallb is_resume ws = true ->
    Forall (fun r0 => is_connected r0 = true) (snapshots st) ->
    exists st',
      idle_loop st = (Pending, st') /\
      trace st' = trace st ++ repeat (EvSleep 1) (S (List.length ws)).
Proof.
  induction ws as [ | w ws IH]; intros st Hor Hall Hconn;
    rewrite idle_loop_unfold; unfold connected;
    unfold snapshots in Hconn; apply Forall_cons_iff in Hconn;
    destruct Hconn as [Hconn0 Hconn]; rewrite Hconn0; unfold bind.
  - rewrite (sleep_pending _ _ Hor). eexists. split; reflexivity.
  - destruct w as [r v | r e]; [ | discriminate].
    rewrite (sleep_resume _ _ _ _ _ Hor). rewrite Hor in Hconn.
    simpl in Hall, Hconn.
    destruct (IH (set_room r (set_oracle ws (add_event (EvSleep 1) st)))
                eq_refl Hall Hconn) as (st' & Hrun & Htrace).
    exists st'. split; [exact Hrun | ].
    rewrite Htrace. simpl. rewrite <- app_assoc. reflexivity.
Qed.

(** X14: as long as every check finds the room connected, [entrypoint]
    stays in its idle loop, one sleep of a second after the other: it does
    not return and does not cancel the video task. *)
Theorem entrypoint_idles_while_connected (st : St)
    (Hresumed : forallb is_resume (oracle st) = true)
    (Hconnected :
       Forall (fun r0 => is_connected r0 = true) (snapshots st)) :
  exists st',
    run_until_disconnected task st = (Pending, st') /\
    trace st' =
      trace st ++ repeat (EvSleep 1) (S (List.length (oracle st))).
Proof.
  destruct (idle_loop_waits (oracle st) st eq_refl Hresumed Hconnected)
    as (st' & Hrun & Htrace).
  exists st'. unfold run_until_disconnected, try_finally. rewrite Hrun.
  split; [reflexivity | exact Htrace].
Qed.

(** X15: when [ctx.connect()], [session.start(...)] or
    [session.generate_reply(...)] raises, [entrypoint] raises the same
    exception; it has not created the video task and its [finally] block,
    which the [try] statement does not cover yet, does not run. *)
Theorem entrypoint_setup_failure (st : St) (j : nat) (r : Room) (e : PyExc)
    (Hj : j < 3)
    (Hresumed : resumed j st)
    (Hthrown : nth_error (oracle st) j = Some (Throw r e)) :
  exists evs,
    fst (entrypoint task st) = Raise e /\
    trace (snd (entrypoint task st)) = trace st ++ evs /\
    ~ In EvCreateTask evs /\
    ~ In EvCancelTask evs /\
    ~ In EvAwaitTask evs.
Proof.
  destruct Hresumed as [_ Hall].
  destruct (oracle st) as [ | w1 ws1] eqn:Hor;
    [destruct j; discriminate | ].
  destruct j as [ | j].
  { simpl in Hthrown. injection Hthrown as ->. unfold entrypoint.
    cbv beta iota delta [bind gets print emit modify ret].
    rewrite (await_throw _ _ _ _ _ Hor).
    eexists. split; [reflexivity | ].
    split; [reflexivity | ].
    simpl. intuition discriminate. }
  destruct w1 as [r1 v1 | ? ?]; [ | discriminate].
  destruct ws1 as [ | w2 ws2]; [destruct j; discriminate | ].
  destruct j as [ | j].
  { simpl in Hthrown. injection Hthrown as ->. unfold entrypoint.
    cbv beta iota delta [bind gets print emit modify ret].
    rewrite (await_resume _ _ _ _ _ Hor). cbv beta iota.
    erewrite await_throw by reflexivity.
    eexists. split; [reflexivity | ].
    split; [simpl; rewrite <- ?app_assoc; simpl; reflexivity | ].
    simpl. intuition discriminate. }
  destruct w2 as [r2 v2 | ? ?]; [ | discriminate].
  destruct ws2 as [ | w3 ws3]; [destruct j; discriminate | ].
  destruct j as [ | j]; [ | lia].
  simpl in Hthrown. injection Hthrown as ->. unfold entrypoint.
  cbv beta iota delta [bind gets print emit modify ret].
  rewrite (await_resume _ _ _ _ _ Hor). cbv beta iota.
  erewrite await_resume by reflexivity. cbv beta iota.
  erewrite await_throw by reflexivity.
  eexists. split; [reflexivity | ].
  split; [simpl; rewrite <- ?app_assoc; simpl; reflexivity | ].
  simpl. intuition discriminate.
Qed.

End EntrypointEdges.

(** ** Further outcomes *)

Section FurtherOutcomes.

Lemma get_video_track_from_raises attempts :
  forall st e st',
    get_video_track_from attempts st = (Raise e, st') ->
    exists k r,
      k < attempts /\
      resumed k st /\
      nth_error (oracle st) k = Some (Throw r e) /\
      Forall no_video_track (firstn (S k) (snapshots st)) /\
      room st' = r /\
      oracle st' = skipn (S k) (oracle st) /\
      trace st' = trace st ++ repeat (EvSleep 1) (S k).
Proof.
  induction attempts as [ | attempts IH]; intros st e st';
    cbn [get_video_track_from]; [discriminate | ].
  unfold bind at 1, gets at 1.
  destruct (scan_participants (remote_participants (room st))) as [t | ]
    eqn:Escan; [discriminate | ].
  apply scan_participants_missed in Escan.
  unfold bind at 1.
  destruct (oracle st) as [ | [r v | r e0] ws] eqn:Hor.
  - rewrite (sleep_pending _ _ Hor). discriminate.
  - rewrite (sleep_resume _ _ _ _ _ Hor). intros H.
    destruct (IH _ _ _ H)
      as (k & r0 & Hlt & Hres & Hnth & Hno & Hroom & Horacle & Htrace).
    simpl in Hnth, Horacle, Htrace. exists (S k), r0.
    split; [lia | ].
    split; [exact (resumed_cons _ _ _ _ _ _ Hor Hres) | ].
    split; [exact Hnth | ].
    split.
    + unfold snapshots in *. rewrite Hor.
      change (firstn (S (S k)) (room st :: map wake_room (Resume r v :: ws)))
        with (room st :: firstn (S k) (map wake_room (Resume r v :: ws))).
      constructor; [exact Escan | exact Hno].
    + split; [exact Hroom | ]. split; [exact Horacle | ].
      rewrite Htrace, <- app_assoc. reflexivity.
  - rewrite (sleep_throw _ _ _ _ _ Hor). intros H. injection H as <- <-.
    exists 0, r. simpl.
    repeat split; try reflexivity; [lia | simpl; lia | ].
    constructor; [exact Escan | constructor].
Qed.

(** X16: [get_video_track] handles no exception: it raises only what was
    thrown into one of its sleeps, a cancellation for instance, at once and
    after scans that found no track, and it then returns neither a track nor
    [None]. *)
Theorem get_video_track_raises_what_a_sleep_raised (st st' : St) (e : PyExc)
    (H : get_video_track st = (Raise e, st')) :
  exists k r,
    k < 30 /\
    resumed k st /\
    nth_error (oracle st) k = Some (Throw r e) /\
    Forall no_video_track (firstn (S k) (snapshots st)) /\
    room st' = r /\
    oracle st' = skipn (S k) (oracle st) /\
    trace st' = trace st ++ repeat (EvSleep 1) (S k).
Proof. exact (get_video_track_from_raises 30 st e st' H). Qed.

(** X17: [process_video] sets no limit to its retries: when the stream of a
    published track fails [n] times in a row, the task logs each failure,
    sleeps a second, finds the track and opens the stream again, and after
    the [n]-th failure it is waiting for a frame once more. *)
Theorem process_video_retries_every_time (r : Room) (t : Track)
    (msg : string) (n : nat) (st : St)
    (Hconnected : is_connected r = true)
    (Hscan : scan_participants (remote_participants r) = Some t)
    (Hroom : room st = r)
    (Hscript :
       oracle st =
         List.concat (repeat [Throw r (Exception msg); Resume r None] n)) :
  exists st',
    process_video st = (Pending, st') /\
    trace st' =
      trace st ++ List.concat (repeat (error_round t (Exception msg)) n)
               ++ stream_opening t.
Proof.
  exact (process_video_keeps_retrying r t msg Hconnected Hscan n st
           Hroom Hscript).
Qed.

End FurtherOutcomes.

(** ** The further properties, on sample runs *)

Section MoreWitnesses.

Import Sample Runs.

Lemma scan_returns_first_video_track_witness :
  scan_participants (remote_participants video_room) = Some video /\
  exists before identity participant after
         pubs_before key publication pubs_after,
    remote_participants video_room =
      before ++ (identity, participant) :: after /\
    track_publications participant =
      pubs_before ++ (key, publication) :: pubs_after /\
    track publication = Some video /\
    track_class video = RemoteVideoTrack /\
    (forall i p, In (i, p) before ->
                 no_video_publication (track_publications p)) /\
    no_video_publication pubs_before.
Proof.
  split; [reflexivity | ].
  exact (scan_returns_first_video_track video_room video eq_refl).
Defined.

Lemma get_video_track_none_only_after_budget_witness :
  get_video_track searching =
    (Ret None,
     mkSt audio_room AssistantFunction_init [] (repeat (EvSleep 1) 30)) /\
  resumed 30 searching /\
  Forall no_video_track (firstn 30 (snapshots searching)) /\
  oracle (mkSt audio_room AssistantFunction_init [] (repeat (EvSleep 1) 30)) =
    skipn 30 (oracle searching) /\
  trace (mkSt audio_room AssistantFunction_init [] (repeat (EvSleep 1) 30)) =
    trace searching ++ repeat (EvSleep 1) 30.
Proof.
  split; [reflexivity | ].
  exact (get_video_track_none_only_after_budget searching
           (mkSt audio_room AssistantFunction_init [] (repeat (EvSleep 1) 30))
           eq_refl).
Defined.

Lemma get_video_track_returns_at_earliest_scan_witness :
  get_video_track joining =
    (Ret (Some video),
     mkSt video_room AssistantFunction_init []
          [EvSleep 1; using_video_track video]) /\
  exists k,
    k < 30 /\
    resumed k joining /\
    Forall no_video_track (firstn k (snapshots joining)) /\
    nth_error (snapshots joining) k = Some video_room /\
    scan_participants (remote_participants video_room) = Some video /\
    [] = skipn k (oracle joining) /\
    [EvSleep 1; using_video_track video] =
      trace joining ++ repeat (EvSleep 1) k ++ [using_video_track video].
Proof.
  split; [reflexivity | ].
  exact (get_video_track_returns_at_earliest_scan joining
           (mkSt video_room AssistantFunction_init []
                 [EvSleep 1; using_video_track video])
           video eq_refl).
Defined.

Lemma process_video_caches_stream_frames_witness :
  connected streaming = true /\
  scan_participants (remote_participants (room streaming)) = Some video /\
  oracle streaming = deliveries [(video_room, frame1); (closed_room, frame2)] /\
  process_video streaming =
    (Pending,
     mkSt closed_room
          {| tools := []; latest_image := Some frame2 |}
          []
          (stream_opening video ++ repeat EvNextFrame 2)).
Proof.
  split; [reflexivity | ]. split; [reflexivity | ]. split; [reflexivity | ].
  exact (process_video_caches_stream_frames streaming video
           [(video_room, frame1); (closed_room, frame2)]
           eq_refl eq_refl eq_refl).
Defined.

Lemma process_video_after_stream_end_witness :
  connected ending = true /\
  scan_participants (remote_participants (room ending)) = Some video /\
  oracle ending =
    deliveries [(video_room, frame1)] ++ Resume closed_room None :: [] /\
  is_connected closed_room = false /\
  process_video ending =
    (Ret tt,
     mkSt closed_room
          {| tools := []; latest_image := Some frame1 |}
          []
          (stream_opening video ++ repeat EvNextFrame 1)).
Proof.
  split; [reflexivity | ]. split; [reflexivity | ]. split; [reflexivity | ].
  split; [reflexivity | ].
  exact (proj2 (process_video_after_stream_end ending video
                  [(video_room, frame1)] closed_room []
                  eq_refl eq_refl eq_refl)
               eq_refl).
Defined.

Lemma process_video_returns_only_when_done_witness :
  process_video ending =
    (Ret tt,
     mkSt closed_room
          {| tools := []; latest_image := Some frame1 |}
          []
          (stream_opening video ++ repeat EvNextFrame 1)) /\
  (connected
     (mkSt closed_room
           {| tools := []; latest_image := Some frame1 |}
           []
           (stream_opening video ++ repeat EvNextFrame 1)) = false \/
   exists e st1,
     isinstance_Exception e = true /\
     mkSt closed_room
          {| tools := []; latest_image := Some frame1 |}
          []
          (stream_opening video ++ repeat EvNextFrame 1) =
       add_event (video_processing_task_error e) st1).
Proof.
  split; [reflexivity | ].
  exact (process_video_returns_only_when_done ending
           (mkSt closed_room
                 {| tools := []; latest_image := Some frame1 |}
                 []
                 (stream_opening video ++ repeat EvNextFrame 1))
           eq_refl).
Defined.

Lemma process_video_stops_on_handler_error_witness :
  connected failing = true /\
  process_video_try failing =
    (Raise (Exception "decoder lost"),
     mkSt video_room AssistantFunction_init
          [Throw video_room (Exception "loop closed")]
          (stream_opening video)) /\
  isinstance_Exception (Exception "decoder lost") = true /\
  process_video failing =
    (Ret tt,
     mkSt video_room AssistantFunction_init []
          (error_round video (Exception "decoder lost")
             ++ [video_processing_task_error (Exception "loop closed")])).
Proof.
  split; [reflexivity | ]. split; [reflexivity | ]. split; [reflexivity | ].
  exact (process_video_stops_on_handler_error failing
           (mkSt video_room AssistantFunction_init
                 [Throw video_room (Exception "loop closed")]
                 (stream_opening video))
           (Exception "decoder lost") video_room "loop closed" []
           eq_refl eq_refl eq_refl eq_refl).
Defined.

Lemma process_video_never_clears_cache_witness :
  latest_image (function_ctx stale) <> None /\
  latest_image (function_ctx (snd (process_video stale))) <> None /\
  tools (function_ctx (snd (process_video stale))) =
    tools (function_ctx stale) /\
  fst (analyze_image "what now?" (snd (process_video stale))) =
    Ret "I can see the current video feed. Let me analyze what's visible.".
Proof.
  assert (H : latest_image (function_ctx stale) <> None) by discriminate.
  split; [exact H | ].
  exact (process_video_never_clears_cache stale "what now?" H).
Defined.

Lemma process_video_cancelled_where_suspended_witness :
  process_video (start video_room [Resume video_room (Some frame1)]) =
    (Pending,
     mkSt video_room {| tools := []; latest_image := Some frame1 |} []
          (stream_opening video ++ [EvNextFrame])) /\
  process_video
    (with_more [Throw closed_room CancelledError]
       (start video_room [Resume video_room (Some frame1)])) =
    (Raise CancelledError,
     mkSt closed_room {| tools := []; latest_image := Some frame1 |} []
          (stream_opening video ++ [EvNextFrame])) /\
  task_outcome (Started (start video_room [Resume video_room (Some frame1)]))
               closed_room = Raise CancelledError.
Proof.
  split; [reflexivity | ].
  exact (process_video_cancelled_where_suspended
           (start video_room [Resume video_room (Some frame1)])
           (mkSt video_room {| tools := []; latest_image := Some frame1 |} []
                 (stream_opening video ++ [EvNextFrame]))
           closed_room [] eq_refl).
Defined.

Lemma not_connected_ends_both_loops_witness :
  connection_state (room (start reconnecting_room [])) <> CONN_CONNECTED /\
  process_video (start reconnecting_room []) =
    (Ret tt, start reconnecting_room []) /\
  run_until_disconnected NotStarted (start reconnecting_room []) =
    (Ret tt,
     add_event EvAwaitTask
       (add_event EvCancelTask (start reconnecting_room []))).
Proof.
  assert (H : connection_state (room (start reconnecting_room []))
              <> CONN_CONNECTED) by discriminate.
  split; [exact H | ].
  exact (not_connected_ends_both_loops NotStarted
           (start reconnecting_room []) H).
Defined.

Lemma entrypoint_cleans_up_on_exception_witness :
  resumed 1 interrupted /\
  Forall (fun r0 => is_connected r0 = true)
         (firstn 2 (snapshots interrupted)) /\
  nth_error (oracle interrupted) 1 = Some (Throw empty_room CancelledError) /\
  exists st',
    run_until_disconnected NotStarted interrupted =
      (Raise CancelledError, st') /\
    trace st' =
      trace interrupted ++ repeat (EvSleep 1) 2
        ++ [EvCancelTask; EvAwaitTask].
Proof.
  assert (Hres : resumed 1 interrupted)
    by (split; [simpl; lia | reflexivity]).
  assert (Hconn : Forall (fun r0 => is_connected r0 = true)
                         (firstn 2 (snapshots interrupted)))
    by (simpl; repeat constructor).
  split; [exact Hres | ]. split; [exact Hconn | ]. split; [reflexivity | ].
  exact (entrypoint_cleans_up_on_exception NotStarted interrupted 1
           empty_room CancelledError Hres Hconn eq_refl).
Defined.

Lemma entrypoint_idles_while_connected_witness :
  forallb is_resume (oracle idling) = true /\
  Forall (fun r0 => is_connected r0 = true) (snapshots idling) /\
  exists st',
    run_until_disconnected NotStarted idling = (Pending, st') /\
    trace st' =
      trace idling ++ repeat (EvSleep 1) (S (List.length (oracle idling))).
Proof.
  assert (Hconn : Forall (fun r0 => is_connected r0 = true)
                         (snapshots idling))
    by (simpl; repeat constructor).
  split; [reflexivity | ]. split; [exact Hconn | ].
  exact (entrypoint_idles_while_connected NotStarted idling eq_refl Hconn).
Defined.

Lemma entrypoint_setup_failure_witness :
  1 < 3 /\
  resumed 1 unstartable /\
  nth_error (oracle unstartable) 1 =
    Some (Throw empty_room (Exception "session failed")) /\
  exists evs,
    fst (entrypoint NotStarted unstartable) =
      Raise (Exception "session failed") /\
    trace (snd (entrypoint NotStarted unstartable)) =
      trace unstartable ++ evs /\
    ~ In EvCreateTask evs /\
    ~ In EvCancelTask evs /\
    ~ In EvAwaitTask evs.
Proof.
  assert (Hlt : 1 < 3) by lia.
  assert (Hres : resumed 1 unstartable)
    by (split; [simpl; lia | reflexivity]).
  split; [exact Hlt | ]. split; [exact Hres | ]. split; [reflexivity | ].
  exact (entrypoint_setup_failure NotStarted unstartable 1 empty_room
           (Exception "session failed") Hlt Hres eq_refl).
Defined.

Lemma get_video_track_raises_what_a_sleep_raised_witness :
  get_video_track cancelled_search =
    (Raise CancelledError,
     mkSt audio_room AssistantFunction_init [] [EvSleep 1; EvSleep 1]) /\
  exists k r,
    k < 30 /\
    resumed k cancelled_search /\
    nth_error (oracle cancelled_search) k = Some (Throw r CancelledError) /\
    Forall no_video_track (firstn (S k) (snapshots cancelled_search)) /\
    audio_room = r /\
    [] = skipn (S k) (oracle cancelled_search) /\
    [EvSleep 1; EvSleep 1] =
      trace cancelled_search ++ repeat (EvSleep 1) (S k).
Proof.
  split; [reflexivity | ].
  exact (get_video_track_raises_what_a_sleep_raised cancelled_search
           (mkSt audio_room AssistantFunction_init [] [EvSleep 1; EvSleep 1])
           CancelledError eq_refl).
Defined.

Lemma process_video_retries_every_time_witness :
  is_connected video_room = true /\
  scan_participants (remote_participants video_room) = Some video /\
  room flaky = video_room /\
  oracle flaky =
    List.concat
      (repeat [Throw video_room (Exception "decoder lost");
               Resume video_room None] 3) /\
  exists st',
    process_video flaky = (Pending, st') /\
    trace st' =
      trace flaky
        ++ List.concat
             (repeat (error_round video (Exception "decoder lost")) 3)
        ++ stream_opening video.
Proof.
  split; [reflexivity | ]. split; [reflexivity | ]. split; [reflexivity | ].
  split; [reflexivity | ].
  exact (process_video_retries_every_time video_room video "decoder lost" 3
           flaky eq_refl eq_refl eq_refl eq_refl).
Defined.

End MoreWitnesses.

(** ** process_video: what a run records *)

Section TraceGrows.

Lemma prefix_of_trans {A : Type} (l1 l2 l3 : list A) :
  prefix_of l1 l2 -> prefix_of l2 l3 -> prefix_of l1 l3.
Proof.
  intros [r1 ->] [r2 ->]. exists (r1 ++ r2). rewrite app_assoc. reflexivity.
Qed.

Lemma prefix_of_more {A : Type} (l rest : list A) : prefix_of l (l ++ rest).
Proof. exists rest. reflexivity. Qed.

Lemma trace_grows_ret {A : Type} (a : A) : trace_grows (ret a).
Proof. intros st. apply prefix_of_refl. Qed.

Lemma trace_grows_gets {A : Type} (f : St -> A) : trace_grows (gets f).
Proof. intros st. apply prefix_of_refl. Qed.

Lemma trace_grows_emit ev : trace_grows (emit ev).
Proof. intros st. apply prefix_of_more. Qed.

Lemma trace_grows_update_image image : trace_grows (update_image image).
Proof. intros st. apply prefix_of_refl. Qed.

Lemma trace_grows_await ev : trace_grows (await ev).
Proof.
  intros st. unfold await. simpl.
  destruct (oracle st) as [ | [r v | r e] ws]; apply prefix_of_more.
Qed.

(** What [m] has recorded stays on record in whatever follows it. *)
Lemma trace_after_bind {A B : Type} (m : M A) (k : A -> M B) :
  (forall a, trace_grows (k a)) ->
  forall st, prefix_of (trace (snd (m st))) (trace (snd (bind m k st))).
Proof.
  intros Hk st. unfold bind.
  destruct (m st) as [[a | e | | ] st1]; simpl; try apply prefix_of_refl.
  apply Hk.
Qed.

Lemma trace_after_try {A : Type} (m : M A) catches (h : PyExc -> M A) :
  (forall e, trace_grows (h e)) ->
  forall st,
    prefix_of (trace (snd (m st))) (trace (snd (try_except m catches h st))).
Proof.
  intros Hh st. unfold try_except.
  destruct (m st) as [[a | e | | ] st1]; simpl; try apply prefix_of_refl.
  destruct (catches e); [apply Hh | apply prefix_of_refl].
Qed.

Lemma trace_grows_bind {A B : Type} (m : M A) (k : A -> M B) :
  trace_grows m -> (forall a, trace_grows (k a)) -> trace_grows (bind m k).
Proof.
  intros Hm Hk st.
  exact (prefix_of_trans _ _ _ (Hm st) (trace_after_bind m k Hk st)).
Qed.

Lemma trace_grows_try_except {A : Type} (m : M A) catches h :
  trace_grows m -> (forall e, trace_grows (h e)) ->
  trace_grows (try_except m catches h).
Proof.
  intros Hm Hh st.
  exact (prefix_of_trans _ _ _ (Hm st) (trace_after_try m catches h Hh st)).
Qed.

Lemma trace_grows_sleep n : trace_grows (sleep n).
Proof.
  apply trace_grows_bind; [apply trace_grows_await | ].
  intros _. apply trace_grows_ret.
Qed.

Lemma trace_grows_while cond body :
  trace_grows body -> trace_grows (while_ cond body).
Proof.
  intros Hb st. unfold while_.
  generalize (S (List.length (oracle st))) as fuel. intros fuel. revert st.
  induction fuel as [ | fuel IH]; intros st; cbn [while_fuel];
    [apply prefix_of_refl | ].
  destruct (cond st); [ | apply prefix_of_refl].
  specialize (Hb st).
  destruct (body st) as [[[] | e | | ] st1]; simpl in *; try exact Hb.
  exact (prefix_of_trans _ _ _ Hb (IH st1)).
Qed.

Lemma trace_grows_async_for body :
  (forall frame, trace_grows (body frame)) -> trace_grows (async_for body).
Proof.
  intros Hb st. unfold async_for.
  generalize (S (List.length (oracle st))) as fuel. intros fuel. revert st.
  induction fuel as [ | fuel IH]; intros st; cbn [async_for_fuel];
    [apply prefix_of_refl | ].
  pose proof (trace_grows_await EvNextFrame st) as Ha.
  destruct (await EvNextFrame st) as [[[frame | ] | e | | ] st1];
    simpl in *; try exact Ha.
  specialize (Hb frame st1).
  destruct (body frame st1) as [[[] | e | | ] st2]; simpl in *;
    try exact (prefix_of_trans _ _ _ Ha Hb).
  exact (prefix_of_trans _ _ _ Ha (prefix_of_trans _ _ _ Hb (IH st2))).
Qed.

Lemma trace_grows_get_video_track_from attempts :
  trace_grows (get_video_track_from attempts).
Proof.
  induction attempts as [ | attempts IH]; cbn [get_video_track_from].
  - apply trace_grows_ret.
  - apply trace_grows_bind; [apply trace_grows_gets | ].
    intros r. destruct (scan_participants (remote_participants r)).
    + apply trace_grows_bind; [apply trace_grows_emit | ].
      intros _. apply trace_grows_ret.
    + apply trace_grows_bind; [apply trace_grows_sleep | ].
      intros _. exact IH.
Qed.

Lemma trace_grows_after_search (video_track : option Track) :
  trace_grows
    (match video_track with
     | None => print "No video track found, waiting..." ;; sleep 2
     | Some t =>
         print "Starting video stream processing..." ;;
         emit (EvVideoStream t) ;;
         async_for (fun frame => update_image frame)
     end).
Proof.
  destruct video_track as [t | ].
  - apply trace_grows_bind; [apply trace_grows_emit | ].
    intros _. apply trace_grows_bind; [apply trace_grows_emit | ].
    intros _. apply trace_grows_async_for.
    intros frame. apply trace_grows_update_image.
  - apply trace_grows_bind; [apply trace_grows_emit | ].
    intros _. apply trace_grows_sleep.
Qed.

Lemma trace_grows_process_video_except e :
  trace_grows (process_video_except e).
Proof.
  apply trace_grows_bind; [apply trace_grows_emit | ].
  intros _. apply trace_grows_sleep.
Qed.

Lemma trace_grows_process_video_iteration :
  trace_grows process_video_iteration.
Proof.
  apply trace_grows_try_except.
  - apply trace_grows_bind; [apply trace_grows_get_video_track_from | ].
    apply trace_grows_after_search.
  - apply trace_grows_process_video_except.
Qed.

Lemma trace_grows_process_video : trace_grows process_video.
Proof.
  apply trace_grows_try_except; [ | intros e; apply trace_grows_emit].
  apply trace_grows_while, trace_grows_process_video_iteration.
Qed.

Lemma process_video_connected st :
  connected st = true ->
  process_video st =
    try_except
      (process_video_iteration ;; while_ connected process_video_iteration)
      isinstance_Exception
      (fun e => print ("Video processing task error: " ++ str e)%string)
      st.
Proof.
  intros Hconn. rewrite process_video_unfold. unfold try_except.
  rewrite Hconn. reflexivity.
Qed.

(** In a connected room [process_video] starts with the search, and what
    the search records stays on record. *)
Lemma process_video_runs_search st :
  connected st = true ->
  prefix_of (trace (snd (get_video_track st))) (trace (snd (process_video st))).
Proof.
  intros Hconn. rewrite (process_video_connected _ Hconn).
  apply (prefix_of_trans _
           (trace (snd (process_video_try st)))).
  { apply (trace_after_bind get_video_track). apply trace_grows_after_search. }
  apply (prefix_of_trans _
           (trace (snd (process_video_iteration st)))).
  { apply (trace_after_try process_video_try).
    apply trace_grows_process_video_except. }
  apply (prefix_of_trans _
           (trace (snd ((process_video_iteration ;;
                         while_ connected process_video_iteration) st)))).
  { apply (trace_after_bind process_video_iteration).
    intros _. apply trace_grows_while, trace_grows_process_video_iteration. }
  apply trace_after_try. intros e. apply trace_grows_emit.
Qed.

End TraceGrows.

(** ** process_video: after an exception, after a search without a track *)

Section ProcessVideoHandlers.




(** X7: a round in which none of the 30 scans finds a track records 30
    sleeps of one second, the line "No video track found, waiting..." and a
    sleep of two seconds, with the tool context as it was.  When that sleep
    is over the loop goes on from its condition: in a room that is still
    connected the search starts again, in a room that is not the task
    returns. *)
Theorem process_video_round_without_track (st : St)
    (Hconnected : connected st = true)
    (Hresumed : resumed 30 st)
    (Hnone : Forall no_video_track (firstn 30 (snapshots st))) :
  exists st30,
    get_video_track st = (Ret None, st30) /\
    trace st30 = trace st ++ repeat (EvSleep 1) 30 /\
    function_ctx st30 = function_ctx st /\
    oracle st30 = skipn 30 (oracle st) /\
    prefix_of (trace (no_track_wait st30)) (trace (snd (process_video st))) /\
    (oracle st30 = [] -> process_video st = (Pending, no_track_wait st30)) /\
    (forall r v ws,
       oracle st30 = Resume r v :: ws ->
       (is_connected r = true ->
        process_video st =
          process_video (resumed_in r ws (no_track_wait st30)) /\
        prefix_of
          (trace (snd (get_video_track
                         (resumed_in r ws (no_track_wait st30)))))
          (trace (snd (process_video st)))) /\
       (is_connected r = false ->
        process_video st = (Ret tt, resumed_in r ws (no_track_wait st30)))) /\
    (forall r ws,
       oracle st30 = Throw r CancelledError :: ws ->
       process_video st =
         (Raise CancelledError, resumed_in r ws (no_track_wait st30))).
Proof.
  destruct (get_video_track_from_exhausted 30 st Hresumed Hnone)
    as (st30 & Hrun & Horacle & Htrace).
  destruct (get_video_track_from_bounded 30 st _ _ Hrun)
    as (_ & _ & _ & Hctx & _).
  exists st30.
  assert (Htry : process_video_try st =
                 sleep 2
                   (add_event (EvPrint "No video track found, waiting...")
                      st30)).
  { unfold process_video_try, get_video_track, bind at 1. rewrite Hrun.
    reflexivity. }
  assert (Hpending : oracle st30 = [] ->
                     process_video st = (Pending, no_track_wait st30)).
  { intros Hwake. rewrite (process_video_connected _ Hconnected).
    unfold try_except at 1, bind at 1, process_video_iteration at 1,
      try_except at 1.
    rewrite Htry, (sleep_pending 2 (add_event _ st30) Hwake). reflexivity. }
  assert (Hresume : forall r v ws,
            oracle st30 = Resume r v :: ws ->
            process_video st =
              process_video (resumed_in r ws (no_track_wait st30))).
  { intros r v ws Hwake. apply process_video_next; [exact Hconnected | ].
    apply process_video_iteration_ret.
    rewrite Htry, (sleep_resume 2 (add_event _ st30) r v ws Hwake).
    reflexivity. }
  assert (Hthrown : forall r e ws,
            oracle st30 = Throw r e :: ws ->
            process_video_iteration st =
              if isinstance_Exception e
              then process_video_except e
                     (resumed_in r ws (no_track_wait st30))
              else (Raise e, resumed_in r ws (no_track_wait st30))).
  { intros r e ws Hwake. unfold process_video_iteration, try_except.
    rewrite Htry, (sleep_throw 2 (add_event _ st30) r e ws Hwake).
    reflexivity. }
  assert (Hcancel : forall r ws,
            oracle st30 = Throw r CancelledError :: ws ->
            process_video st =
              (Raise CancelledError, resumed_in r ws (no_track_wait st30))).
  { intros r ws Hwake. rewrite (process_video_connected _ Hconnected).
    unfold try_except at 1, bind at 1.
    rewrite (Hthrown r CancelledError ws Hwake). reflexivity. }
  split; [exact Hrun | ]. split; [exact Htrace | ]. split; [exact Hctx | ].
  split; [exact Horacle | ].
  split.
  { destruct (oracle st30) as [ | [r v | r e] ws] eqn:Hwake.
    - rewrite (Hpending eq_refl). apply prefix_of_refl.
    - rewrite (Hresume r v ws eq_refl).
      apply (trace_grows_process_video
               (resumed_in r ws (no_track_wait st30))).
    - rewrite (process_video_connected _ Hconnected).
      apply (prefix_of_trans _
               (trace (snd (process_video_iteration st)))).
      + rewrite (Hthrown r e ws eq_refl).
        destruct (isinstance_Exception e).
        * apply (trace_grows_process_video_except e
                   (resumed_in r ws (no_track_wait st30))).
        * apply prefix_of_refl.
      + apply (prefix_of_trans _
                 (trace (snd ((process_video_iteration ;;
                               while_ connected process_video_iteration)
                                st)))).
        * apply (trace_after_bind process_video_iteration).
          intros _.
          apply trace_grows_while, trace_grows_process_video_iteration.
        * apply trace_after_try. intros e0. apply trace_grows_emit. }
  split; [exact Hpending | ].
  split; [ | exact Hcancel].
  intros r v ws Hwake. split.
  - intros Hr. split; [exact (Hresume r v ws Hwake) | ].
    rewrite (Hresume r v ws Hwake).
    apply process_video_runs_search. exact Hr.
  - intros Hr. rewrite (Hresume r v ws Hwake).
    apply process_video_disconnected. exact Hr.
Qed.

End ProcessVideoHandlers.

Section HandlerWitnesses.

Import Sample Runs.



Lemma process_video_round_without_track_witness :
  connected waiting = true /\
  resumed 30 waiting /\
  Forall no_video_track (firstn 30 (snapshots waiting)) /\
  exists st30,
    get_video_track waiting = (Ret None, st30) /\
    trace st30 = trace waiting ++ repeat (EvSleep 1) 30 /\
    function_ctx st30 = function_ctx waiting /\
    oracle st30 = skipn 30 (oracle waiting) /\
    prefix_of (trace (no_track_wait st30))
              (trace (snd (process_video waiting))) /\
    (oracle st30 = [] ->
     process_video waiting = (Pending, no_track_wait st30)) /\
    (forall r v ws,
       oracle st30 = Resume r v :: ws ->
       (is_connected r = true ->
        process_video waiting =
          process_video (resumed_in r ws (no_track_wait st30)) /\
        prefix_of
          (trace (snd (get_video_track
                         (resumed_in r ws (no_track_wait st30)))))
          (trace (snd (process_video waiting)))) /\
       (is_connected r = false ->
        process_video waiting =
          (Ret tt, resumed_in r ws (no_track_wait st30)))) /\
    (forall r ws,
       oracle st30 = Throw r CancelledError :: ws ->
       process_video waiting =
         (Raise CancelledError, resumed_in r ws (no_track_wait st30))).
Proof.
  assert (Hno : no_video_track audio_room)
    by (apply scan_participants_missed; reflexivity).
  assert (Hres : resumed 30 waiting) by (split; [simpl; lia | reflexivity]).
  assert (Hnone : Forall no_video_track (firstn 30 (snapshots waiting)))
    by (simpl; repeat constructor; exact Hno).
  split; [reflexivity | ]. split; [exact Hres | ]. split; [exact Hnone | ].
  exact (process_video_round_without_track waiting eq_refl Hres Hnone).
Defined.

(** The round of [waiting], run to the end of its script: 30 sleeps, the
    line, the sleep of two seconds, and the first sleep of the next
    search. *)
Example process_video_waiting_run :
  process_video waiting =
    (Pending,
     mkSt audio_room AssistantFunction_init []
          (repeat (EvSleep 1) 30
             ++ [EvPrint "No video track found, waiting..."; EvSleep 2;
                 EvSleep 1])).
Proof. reflexivity. Qed.

End HandlerWitnesses.
